(** * The plugin subsystem of tutor ([tutor/plugins.py])

    A shallow embedding of the plugin registry, the aggregator over the
    enabled plugins and the [enable]/[disable] operations, followed by the
    properties of these functions.

    Conventions of the embedding.
    - A Python [dict] is an association list in insertion order; its keys
      are pairwise distinct ([dict_wf]).
    - A generator is the list of the values it yields together with the
      exception that ended it, if any ([gen]).
    - Class attributes, the caller's configuration mapping and the messages
      written by [fmt.echo_info] are threaded explicitly. *)

From Stdlib Require Import String Ascii Bool Arith Lia.
From Stdlib Require Import List Permutation Sorted OrderedTypeEx.
Import ListNotations.
Local Open Scope string_scope.
Local Open Scope list_scope.

Set Implicit Arguments.

(** ** Python values and containers *)

Module Py.

(** Exceptions raised by the module or by the primitives it calls. *)
Inductive error : Type :=
| TutorError (msg : string)
| KeyError (key : string)
| AttributeError (attr : string)
| TypeError (msg : string)
| ImportError (module : string)
| ValueError (key : string).

Inductive result (A : Type) : Type :=
| Ok (a : A)
| Raise (e : error).
Arguments Ok {A} a.
Arguments Raise {A} e.

(** What a generator does when it is run to its end: the values yielded,
    and the exception that stopped it ([None] when it returned). *)
Definition gen (A : Type) : Type := (list A * option error)%type.

(** [name in l] for a list of strings. *)
Definition list_in (x : string) (l : list string) : bool :=
  existsb (String.eqb x) l.

(** [l.remove(x)]: drops the first occurrence. *)
Fixpoint list_remove (x : string) (l : list string) : list string :=
  match l with
  | [] => []
  | y :: l' => if String.eqb x y then l' else y :: list_remove x l'
  end.

(** [sorted(l)] and [l.sort()] on strings: comparison by code point. Equal
    strings are identical, so every sorting algorithm returns this list. *)
Fixpoint insert (x : string) (l : list string) : list string :=
  match l with
  | [] => [x]
  | y :: l' => if String.leb x y then x :: l else y :: insert x l'
  end.

Fixpoint sorted (l : list string) : list string :=
  match l with
  | [] => []
  | x :: l' => insert x (sorted l')
  end.

(** [a in b] for two strings: [a] occurs in [b]. *)
Definition str_in (a b : string) : bool :=
  match String.index 0 a b with
  | Some _ => true
  | None => false
  end.

(** Insertion-ordered dictionaries with string keys. *)
Definition dict (V : Type) : Type := list (string * V).

Section Dict.
Variable V : Type.

Definition dict_keys (d : dict V) : list string := map fst d.

Definition dict_items (d : dict V) : list (string * V) := d.

Fixpoint dict_get (d : dict V) (k : string) : option V :=
  match d with
  | [] => None
  | (k', v) :: d' => if String.eqb k' k then Some v else dict_get d' k
  end.

(** [d.get(k, default)] *)
Definition dict_get_default (d : dict V) (k : string) (default : V) : V :=
  match dict_get d k with
  | Some v => v
  | None => default
  end.

(** [k in d] *)
Definition dict_contains (d : dict V) (k : string) : bool :=
  list_in k (dict_keys d).

(** [d[k] = v]: a present key keeps its position, a new key goes last. *)
Fixpoint dict_set (d : dict V) (k : string) (v : V) : dict V :=
  match d with
  | [] => [(k, v)]
  | (k', v') :: d' =>
      if String.eqb k' k then (k, v) :: d' else (k', v') :: dict_set d' k v
  end.

(** [d.pop(k, None)] *)
Definition dict_pop (d : dict V) (k : string) : dict V :=
  filter (fun kv => negb (String.eqb (fst kv) k)) d.

Definition dict_wf (d : dict V) : Prop := NoDup (dict_keys d).
End Dict.

(** The values of a configuration mapping: a string or a list of strings. *)
Inductive value : Type :=
| VStr (s : string)
| VList (l : list string).

(** [name in v] *)
Definition value_contains (v : value) (x : string) : bool :=
  match v with
  | VStr s => str_in x s
  | VList l => list_in x l
  end.

End Py.
Import Py.

(** ** Plugin records *)

Definition CONFIG_KEY : string := "PLUGINS".

(** The concrete subclasses of [BasePlugin]. *)
Inductive PluginClass : Type :=
| OfficialPlugin
| EntrypointPlugin
| DictPlugin.

Definition PluginClass_eqb (a b : PluginClass) : bool :=
  match a, b with
  | OfficialPlugin, OfficialPlugin => true
  | EntrypointPlugin, EntrypointPlugin => true
  | DictPlugin, DictPlugin => true
  | _, _ => false
  end.

(** [hooks] values: a list of services or a mapping of services. *)
Inductive hook_services : Type :=
| ServiceList (l : list string)
| ServiceDict (d : dict string).

(** An attribute of the object a plugin is built from: absent, a plain
    value, or a callable taking no argument. *)
Inductive attr (A : Type) : Type :=
| Missing
| Static (a : A)
| Callable (f : unit -> A).
Arguments Missing {A}.
Arguments Static {A} a.
Arguments Callable {A} f.

Definition get_callable_attr (A : Type) (a : attr A) (default : A) : A :=
  match a with
  | Missing => default
  | Static v => v
  | Callable f => f tt
  end.

Record plugin_obj : Type := {
  obj_config : attr (dict (dict value));
  obj_patches : attr (dict string);
  obj_hooks : attr (dict hook_services);
  obj_templates : attr (option string);
  obj_command : option string
}.

(** The fields a subclass adds to [BasePlugin]; they fix the class of the
    record and where [version] reads from. *)
Inductive origin : Type :=
| OfModule (version_attr : option value)
| OfEntrypoint (dist_version : option string)
| OfDict (_version : value).

Record plugin : Type := {
  name : string;
  config : dict (dict value);
  patches : dict string;
  hooks : dict hook_services;
  templates_root : option string;
  command : option string;
  source : origin
}.

Definition class_of (p : plugin) : PluginClass :=
  match source p with
  | OfModule _ => OfficialPlugin
  | OfEntrypoint _ => EntrypointPlugin
  | OfDict _ => DictPlugin
  end.

(** [BasePlugin.__init__] *)
Definition BasePlugin_init (n : string) (obj : plugin_obj) (o : origin) : plugin :=
  {| name := n;
     config := get_callable_attr (obj_config obj) [];
     patches := get_callable_attr (obj_patches obj) [];
     hooks := get_callable_attr (obj_hooks obj) [];
     templates_root := get_callable_attr (obj_templates obj) None;
     command := obj_command obj;
     source := o |}.

Section ConfigKey.
(** [str.upper], which the module takes from the language. *)
Variable upper : string -> string.

Definition config_key (p : plugin) (key : string) : string :=
  upper (name p) ++ "_" ++ key.
End ConfigKey.

Definition config_add (p : plugin) : dict value :=
  dict_get_default (config p) "add" [].

Definition config_set (p : plugin) : dict value :=
  dict_get_default (config p) "set" [].

Definition config_defaults (p : plugin) : dict value :=
  dict_get_default (config p) "defaults" [].

(** The [version] property of the three subclasses. *)
Definition version (p : plugin) : result string :=
  match source p with
  | OfEntrypoint None => Ok "0.0.0"
  | OfEntrypoint (Some v) => Ok v
  | OfModule None => Raise (AttributeError "__version__")
  | OfModule (Some (VStr v)) => Ok v
  | OfModule (Some (VList _)) =>
      Raise (TypeError "OfficialPlugin __version__ must be 'str'")
  | OfDict (VStr v) => Ok v
  | OfDict (VList _) => Raise (TypeError "DictPlugin.__version__ must be str")
  end.

(** ** The sources the strategies scan *)

(** An entry point advertised under ["tutor.plugin.v0"]. *)
Record entrypoint : Type := {
  ep_name : string;
  ep_load : result plugin_obj;
  ep_dist : option string
}.

(** A module [tutor<name>.plugin]. *)
Record plugin_module : Type := {
  mod_obj : plugin_obj;
  mod_version : option value
}.

(** A decoded [*.yml] document: a mapping or anything else. Of a mapping
    the model keeps the seven keys the module reads, which are all valid
    field names, and [d_refused_key]: the key for which
    [namedtuple("Module", data.keys())] raises [ValueError], when the
    mapping has a key that is not an identifier, is a keyword or starts
    with an underscore. *)
Record plugin_data : Type := {
  d_refused_key : option string;
  d_name : option string;
  d_version : option value;
  d_config : option (dict (dict value));
  d_patches : option (dict string);
  d_hooks : option (dict hook_services);
  d_templates : option string;
  d_command : option string
}.

Inductive document : Type :=
| NotADict
| Mapping (data : plugin_data).

Record env : Type := {
  entry_points : list entrypoint;
  modules : dict plugin_module;
  plugin_files : list (string * document)
}.

Definition attr_of_option (A : Type) (o : option A) : attr A :=
  match o with
  | Some a => Static a
  | None => Missing
  end.

(** The named tuple that [DictPlugin.__init__] builds from [data]. *)
Definition obj_of_data (data : plugin_data) : plugin_obj :=
  {| obj_config := attr_of_option (d_config data);
     obj_patches := attr_of_option (d_patches data);
     obj_hooks := attr_of_option (d_hooks data);
     obj_templates := attr_of_option (option_map Some (d_templates data));
     obj_command := d_command data |}.

(** [DictPlugin.__init__]: the named tuple is built from the keys before
    [data["name"]] is read. *)
Definition DictPlugin_init (data : plugin_data) : result plugin :=
  match d_refused_key data with
  | Some k => Raise (ValueError k)
  | None =>
      match d_name data with
      | None => Raise (KeyError "name")
      | Some n =>
          match d_version data with
          | None => Raise (KeyError "version")
          | Some v => Ok (BasePlugin_init n (obj_of_data data) (OfDict v))
          end
      end
  end.

(** [EntrypointPlugin.__init__] *)
Definition EntrypointPlugin_init (ep : entrypoint) : result plugin :=
  match ep_load ep with
  | Raise e => Raise e
  | Ok obj => Ok (BasePlugin_init (ep_name ep) obj (OfEntrypoint (ep_dist ep)))
  end.

(** [OfficialPlugin.__init__] *)
Definition OfficialPlugin_init (E : env) (n : string) : result plugin :=
  let path := ("tutor" ++ n ++ ".plugin")%string in
  match dict_get (modules E) path with
  | None => Raise (ImportError path)
  | Some m => Ok (BasePlugin_init n (mod_obj m) (OfModule (mod_version m)))
  end.

(** ** Discovery *)

Fixpoint EntrypointPlugin_iter_load (eps : list entrypoint) : gen plugin :=
  match eps with
  | [] => ([], None)
  | ep :: eps' =>
      match EntrypointPlugin_init ep with
      | Raise e => ([], Some e)
      | Ok p =>
          let '(ps, e) := EntrypointPlugin_iter_load eps' in (p :: ps, e)
      end
  end.

Fixpoint DictPlugin_iter_load (files : list (string * document)) : gen plugin :=
  match files with
  | [] => ([], None)
  | (path, doc) :: files' =>
      match doc with
      | NotADict =>
          ([], Some (TutorError
                       ("Invalid plugin: " ++ path ++ ". Expected dict.")%string))
      | Mapping data =>
          match DictPlugin_init data with
          | Raise (KeyError k) =>
              ([], Some (TutorError
                           ("Invalid plugin: " ++ path ++ ". Missing key: " ++ k)%string))
          | Raise e => ([], Some e)
          | Ok p =>
              let '(ps, e) := DictPlugin_iter_load files' in (p :: ps, e)
          end
      end
  end.

Definition iter_load (E : env) (c : PluginClass) : gen plugin :=
  match c with
  | OfficialPlugin => ([], None)
  | EntrypointPlugin => EntrypointPlugin_iter_load (entry_points E)
  | DictPlugin => DictPlugin_iter_load (plugin_files E)
  end.

(** ** The class attributes [INSTALLED] and [_IS_LOADED]

    [INSTALLED] is bound once, in the body of [BasePlugin], to a list object;
    no subclass binds the name again and no code assigns to it, so
    [cls.INSTALLED] denotes that one object for every class, and [append] and
    [clear] act on it. [cls._IS_LOADED = True] binds the attribute in [cls]
    itself, so there is one flag per class, [False] until it is bound. *)
Record registry : Type := {
  BasePlugin_INSTALLED : list plugin;
  official_IS_LOADED : bool;
  entrypoint_IS_LOADED : bool;
  dict_IS_LOADED : bool
}.

Definition initial_registry : registry :=
  {| BasePlugin_INSTALLED := [];
     official_IS_LOADED := false;
     entrypoint_IS_LOADED := false;
     dict_IS_LOADED := false |}.

(** [cls.INSTALLED] *)
Definition INSTALLED (c : PluginClass) (r : registry) : list plugin :=
  BasePlugin_INSTALLED r.

(** [cls._IS_LOADED] *)
Definition IS_LOADED (c : PluginClass) (r : registry) : bool :=
  match c with
  | OfficialPlugin => official_IS_LOADED r
  | EntrypointPlugin => entrypoint_IS_LOADED r
  | DictPlugin => dict_IS_LOADED r
  end.

(** [cls.INSTALLED.append(p)] *)
Definition INSTALLED_append (c : PluginClass) (p : plugin) (r : registry) : registry :=
  {| BasePlugin_INSTALLED := INSTALLED c r ++ [p];
     official_IS_LOADED := official_IS_LOADED r;
     entrypoint_IS_LOADED := entrypoint_IS_LOADED r;
     dict_IS_LOADED := dict_IS_LOADED r |}.

(** [cls.INSTALLED.clear()] *)
Definition INSTALLED_clear (c : PluginClass) (r : registry) : registry :=
  {| BasePlugin_INSTALLED := [];
     official_IS_LOADED := official_IS_LOADED r;
     entrypoint_IS_LOADED := entrypoint_IS_LOADED r;
     dict_IS_LOADED := dict_IS_LOADED r |}.

(** [cls._IS_LOADED = True] *)
Definition set_IS_LOADED (c : PluginClass) (r : registry) : registry :=
  match c with
  | OfficialPlugin =>
      {| BasePlugin_INSTALLED := BasePlugin_INSTALLED r;
         official_IS_LOADED := true;
         entrypoint_IS_LOADED := entrypoint_IS_LOADED r;
         dict_IS_LOADED := dict_IS_LOADED r |}
  | EntrypointPlugin =>
      {| BasePlugin_INSTALLED := BasePlugin_INSTALLED r;
         official_IS_LOADED := official_IS_LOADED r;
         entrypoint_IS_LOADED := true;
         dict_IS_LOADED := dict_IS_LOADED r |}
  | DictPlugin =>
      {| BasePlugin_INSTALLED := BasePlugin_INSTALLED r;
         official_IS_LOADED := official_IS_LOADED r;
         entrypoint_IS_LOADED := entrypoint_IS_LOADED r;
         dict_IS_LOADED := true |}
  end.

Section Registry.
Variable E : env.

(** [BasePlugin.iter_installed]: the loading loop runs to its end (or to
    an exception) before the first value is yielded. *)
Definition BasePlugin_iter_installed (c : PluginClass) (r : registry)
  : gen plugin * registry :=
  if negb (IS_LOADED c r) then
    let '(ps, e) := iter_load E c in
    let r1 := fold_left (fun r' p => INSTALLED_append c p r') ps r in
    match e with
    | Some err => (([], Some err), r1)
    | None =>
        let r2 := set_IS_LOADED c r1 in
        ((INSTALLED c r2, None), r2)
    end
  else ((INSTALLED c r, None), r).

(** [OfficialPlugin.load] *)
Definition OfficialPlugin_load (n : string) (r : registry)
  : result plugin * registry :=
  match OfficialPlugin_init E n with
  | Raise e => (Raise e, r)
  | Ok p => (Ok p, INSTALLED_append OfficialPlugin p r)
  end.

Definition PLUGIN_CLASSES : list PluginClass :=
  [OfficialPlugin; EntrypointPlugin; DictPlugin].

(** [Plugins.clear] *)
Definition Plugins_clear (r : registry) : registry :=
  fold_left (fun r' c => INSTALLED_clear c r') PLUGIN_CLASSES r.

(** The inner loop of [Plugins.iter_installed] over the plugins of one
    class: the plugins yielded and the names seen afterwards. *)
Fixpoint yield_new (seen : list string) (ps : list plugin)
  : list plugin * list string :=
  match ps with
  | [] => ([], seen)
  | p :: ps' =>
      if list_in (name p) seen then yield_new seen ps'
      else
        let '(ys, seen') := yield_new (name p :: seen) ps' in
        (p :: ys, seen')
  end.

Fixpoint iter_installed_from (classes : list PluginClass) (seen : list string)
  (r : registry) : gen plugin * registry :=
  match classes with
  | [] => (([], None), r)
  | c :: classes' =>
      let '((ps, e), r1) := BasePlugin_iter_installed c r in
      let '(ys, seen1) := yield_new seen ps in
      match e with
      | Some err => ((ys, Some err), r1)
      | None =>
          let '((zs, e'), r2) := iter_installed_from classes' seen1 r1 in
          ((ys ++ zs, e'), r2)
      end
  end.

(** [Plugins.iter_installed], run to its end. *)
Definition Plugins_iter_installed (r : registry) : gen plugin * registry :=
  iter_installed_from PLUGIN_CLASSES [] r.

(** [is_installed]: the generator is dropped at the first match, so the
    classes after the one that yields it are not visited. *)
Fixpoint is_installed_from (n : string) (classes : list PluginClass)
  (seen : list string) (r : registry) : result bool * registry :=
  match classes with
  | [] => (Ok false, r)
  | c :: classes' =>
      let '((ps, e), r1) := BasePlugin_iter_installed c r in
      let '(ys, seen1) := yield_new seen ps in
      if existsb (fun p => String.eqb n (name p)) ys then (Ok true, r1)
      else
        match e with
        | Some err => (Raise err, r1)
        | None => is_installed_from n classes' seen1 r1
        end
  end.

Definition is_installed (n : string) (r : registry) : result bool * registry :=
  is_installed_from n PLUGIN_CLASSES [] r.
End Registry.

(** ** The aggregator [Plugins] and the operations on a configuration *)

(** [is_enabled] *)
Definition is_enabled (cfg : dict value) (n : string) : bool :=
  value_contains (dict_get_default cfg CONFIG_KEY (VList [])) n.

Record Plugins : Type := {
  self_config : dict value;
  self_patches : dict (dict string);
  self_hooks : dict (dict hook_services);
  self_template_roots : dict string
}.

(** The two statements of the loops of [Plugins.__init__]:
    [if slot not in d: d[slot] = {}] and [d[slot][plugin_name] = v]. *)
Definition record_entry (V : Type) (d : dict (dict V)) (plugin_name : string)
  (kv : string * V) : dict (dict V) :=
  let slot := fst kv in
  let d1 := if dict_contains d slot then d else dict_set d slot [] in
  dict_set d1 slot (dict_set (dict_get_default d1 slot []) plugin_name (snd kv)).

(** The body of the outer loop, for one enabled plugin. *)
Definition record_plugin (self : Plugins) (p : plugin) : Plugins :=
  {| self_config := self_config self;
     self_patches :=
       fold_left (fun d kv => record_entry d (name p) kv)
                 (dict_items (patches p)) (self_patches self);
     self_hooks :=
       fold_left (fun d kv => record_entry d (name p) kv)
                 (dict_items (hooks p)) (self_hooks self);
     self_template_roots := self_template_roots self |}.

(** A message handed to [fmt.echo_info]: the format string and the
    arguments of [format]. *)
Record message : Type := {
  template : string;
  arguments : list value
}.

Definition echo_info (log : list message) (t : string) (a : list value)
  : list message :=
  log ++ [{| template := t; arguments := a |}].

(** The loop [while name in l: l.remove(name)] on the list object [l]. Every
    turn shortens the list, so [length l] turns are enough. *)
Fixpoint remove_while (turns : nat) (n : string) (l : list string) : list string :=
  if list_in n l then
    match turns with
    | O => l
    | S turns' => remove_while turns' n (list_remove n l)
    end
  else l.

Section Operations.
Variable E : env.

(** [Plugins.iter_enabled]; the configuration read is the copy taken by
    the constructor. *)
Definition Plugins_iter_enabled (self : Plugins) (r : registry)
  : gen plugin * registry :=
  let '((ps, e), r1) := Plugins_iter_installed E r in
  ((filter (fun p => is_enabled (self_config self) (name p)) ps, e), r1).

(** [Plugins.__init__]; values of the embedding are immutable, so
    [deepcopy(config)] is [config]. An exception leaves no object. *)
Definition Plugins_init (cfg : dict value) (r : registry)
  : result Plugins * registry :=
  let self := {| self_config := cfg;
                 self_patches := [];
                 self_hooks := [];
                 self_template_roots := [] |} in
  let '((ps, e), r1) := Plugins_iter_enabled self r in
  match e with
  | Some err => (Raise err, r1)
  | None => (Ok (fold_left record_plugin ps self), r1)
  end.

(** [Plugins.iter_patches]; [plugin_patches[plugin]] is read for the keys
    of [plugin_patches] only. *)
Definition Plugins_iter_patches (self : Plugins) (n : string)
  : list (string * string) :=
  let plugin_patches := dict_get_default (self_patches self) n [] in
  let plugins := sorted (dict_keys plugin_patches) in
  flat_map (fun plugin =>
              match dict_get plugin_patches plugin with
              | Some content => [(plugin, content)]
              | None => []
              end) plugins.

(** [Plugins.iter_hooks] *)
Definition Plugins_iter_hooks (self : Plugins) (hook_name : string)
  : list (string * hook_services) :=
  dict_items (dict_get_default (self_hooks self) hook_name []).

(** [enable]: the outcome, the class attributes and the caller's mapping
    afterwards. *)
Definition enable (cfg : dict value) (n : string) (r : registry)
  : result unit * registry * dict value :=
  match is_installed E n r with
  | (Raise e, r1) => (Raise e, r1, cfg)
  | (Ok false, r1) =>
      (Raise (TutorError ("plugin '" ++ n ++ "' is not installed.")%string),
       r1, cfg)
  | (Ok true, r1) =>
      if is_enabled cfg n then (Ok tt, r1, cfg)
      else
        let cfg1 := if dict_contains cfg CONFIG_KEY then cfg
                    else dict_set cfg CONFIG_KEY (VList []) in
        match dict_get cfg1 CONFIG_KEY with
        | None => (Raise (KeyError CONFIG_KEY), r1, cfg1)
        | Some (VStr _) => (Raise (AttributeError "append"), r1, cfg1)
        | Some (VList l) =>
            (Ok tt, r1, dict_set cfg1 CONFIG_KEY (VList (sorted (l ++ [n]))))
        end
  end.

(** The body of the loop of [disable] for one enabled plugin. *)
Definition disable_plugin (n : string) (st : dict value * list message)
  (p : plugin) : dict value * list message :=
  if String.eqb n (name p) then
    fold_left
      (fun '(cfg, log) '(key, v) =>
         (dict_pop cfg key,
          echo_info log "    Removed config entry {}={}" [VStr key; v]))
      (dict_items (config_set p)) st
  else st.

(** [disable]: the outcome, the class attributes, the caller's mapping and
    the messages written. *)
Definition disable (cfg : dict value) (n : string) (r : registry)
  : result unit * registry * dict value * list message :=
  let log0 := echo_info [] "Disabling plugin {}..." [VStr n] in
  match Plugins_init cfg r with
  | (Raise e, r1) => (Raise e, r1, cfg, log0)
  | (Ok self, r1) =>
      let '((ps, e), r2) := Plugins_iter_enabled self r1 in
      let '(cfg1, log1) := fold_left (disable_plugin n) ps (cfg, log0) in
      match e with
      | Some err => (Raise err, r2, cfg1, log1)
      | None =>
          match dict_get cfg1 CONFIG_KEY with
          | None => (Raise (KeyError CONFIG_KEY), r2, cfg1, log1)
          | Some (VStr s) =>
              if str_in n s then (Raise (AttributeError "remove"), r2, cfg1, log1)
              else (Ok tt, r2, cfg1, echo_info log1 "    Plugin disabled" [])
          | Some (VList l) =>
              (Ok tt, r2,
               dict_set cfg1 CONFIG_KEY (VList (remove_while (length l) n l)),
               echo_info log1 "    Plugin disabled" [])
          end
      end
  end.

(** The module-level readers. *)
Definition iter_enabled (cfg : dict value) (r : registry)
  : gen plugin * registry :=
  match Plugins_init cfg r with
  | (Raise e, r1) => (([], Some e), r1)
  | (Ok self, r1) => Plugins_iter_enabled self r1
  end.

Definition iter_patches (cfg : dict value) (n : string) (r : registry)
  : gen (string * string) * registry :=
  match Plugins_init cfg r with
  | (Raise e, r1) => (([], Some e), r1)
  | (Ok self, r1) => ((Plugins_iter_patches self n, None), r1)
  end.

Definition iter_hooks (cfg : dict value) (hook_name : string) (r : registry)
  : gen (string * hook_services) * registry :=
  match Plugins_init cfg r with
  | (Raise e, r1) => (([], Some e), r1)
  | (Ok self, r1) => ((Plugins_iter_hooks self hook_name, None), r1)
  end.
End Operations.

(** ** Notions used in the statements *)

(** Order of strings, as [sorted] compares them. *)
Definition str_le (a b : string) : Prop := String.leb a b = true.
Definition str_lt (a b : string) : Prop := String.ltb a b = true.

(** The sequence the specification describes: of the records with one name,
    the first is kept. *)
Fixpoint dedup_by_name (ps : list plugin) : list plugin :=
  match ps with
  | [] => []
  | p :: ps' =>
      p :: filter (fun q => negb (String.eqb (name q) (name p)))
                  (dedup_by_name ps')
  end.

Definition all_loaded (r : registry) : Prop :=
  forall c, IS_LOADED c r = true.

(** What a first visit of class [c] appends to [INSTALLED]. *)
Definition pending (E : env) (c : PluginClass) (r : registry) : list plugin :=
  if IS_LOADED c r then [] else fst (iter_load E c).

(** The class attributes after a visit of class [c] that left [l] in
    [INSTALLED]. *)
Definition visited (c : PluginClass) (l : list plugin) (r : registry) : registry :=
  set_IS_LOADED c
    {| BasePlugin_INSTALLED := l;
       official_IS_LOADED := official_IS_LOADED r;
       entrypoint_IS_LOADED := entrypoint_IS_LOADED r;
       dict_IS_LOADED := dict_IS_LOADED r |}.

(** Class [c] can be visited without an exception. *)
Definition load_ok (E : env) (c : PluginClass) (r : registry) : Prop :=
  IS_LOADED c r = true \/ snd (iter_load E c) = None.

(** The place of a class in [PLUGIN_CLASSES]. *)
Definition rank (c : PluginClass) : nat :=
  match c with
  | OfficialPlugin => 0
  | EntrypointPlugin => 1
  | DictPlugin => 2
  end.

(** [OfficialPlugin.load] called for each name in turn, as long as no call
    raises. *)
Fixpoint load_official (E : env) (ns : list string) (r : registry)
  : result (list plugin) * registry :=
  match ns with
  | [] => (Ok [], r)
  | n :: ns' =>
      match OfficialPlugin_load E n r with
      | (Raise e, r1) => (Raise e, r1)
      | (Ok p, r1) =>
          match load_official E ns' r1 with
          | (Raise e, r2) => (Raise e, r2)
          | (Ok ps, r2) => (Ok (p :: ps), r2)
          end
      end
  end.

(** The list of the entry [CONFIG_KEY] as [enable] reads it: empty when the
    entry is absent, none when the entry is not a list. *)
Definition enabled_list (cfg : dict value) : option (list string) :=
  match dict_get cfg CONFIG_KEY with
  | None => Some []
  | Some (VList l) => Some l
  | Some (VStr _) => None
  end.

(** What the enabled plugins [ps] give for one slot or phase, in the order
    of [ps]. *)
Definition contributions (V : Type) (sel : plugin -> dict V) (slot : string)
  (ps : list plugin) : list (string * V) :=
  flat_map (fun p => match dict_get (sel p) slot with
                     | Some v => [(name p, v)]
                     | None => []
                     end) ps.

(** The keys that the loop of [disable] pops. *)
Definition removed_keys (n : string) (ps : list plugin) : list string :=
  flat_map (fun p => if String.eqb n (name p) then dict_keys (config_set p)
                     else []) ps.

(** What the loop of [Plugins.__init__] over the items of the plugin [n]
    does to the entry of one slot. *)
Definition slot_fold (V : Type) (slot n : string) (items : list (string * V))
  (inner : dict V) : dict V :=
  fold_left (fun i kv => if String.eqb (fst kv) slot then dict_set i n (snd kv)
                         else i) items inner.

(** The outer loop of [Plugins.__init__], for the collection filled from the
    attribute [sel]. *)
Definition record_all (V : Type) (sel : plugin -> dict V) (ps : list plugin)
  (d : dict (dict V)) : dict (dict V) :=
  fold_left (fun d' p =>
               fold_left (fun d'' kv => record_entry d'' (name p) kv)
                         (dict_items (sel p)) d') ps d.

(** The object before the loops of [Plugins.__init__]. *)
Definition empty_Plugins (cfg : dict value) : Plugins :=
  {| self_config := cfg; self_patches := []; self_hooks := [];
     self_template_roots := [] |}.

(** The message [disable] writes for one item of [config.set]. *)
Definition removed_message (kv : string * value) : message :=
  {| template := "    Removed config entry {}={}";
     arguments := [VStr (fst kv); snd kv] |}.

(** The messages that the loop of [disable] writes. *)
Definition removed_messages (n : string) (ps : list plugin) : list message :=
  flat_map (fun p => if String.eqb n (name p)
                     then map removed_message (dict_items (config_set p))
                     else []) ps.

(** *** Sample sources *)

Definition no_attrs : plugin_obj :=
  {| obj_config := Missing; obj_patches := Missing; obj_hooks := Missing;
     obj_templates := Missing; obj_command := None |}.

(** The file of the scenario of the specification. *)
Definition forum_data : plugin_data :=
  {| d_refused_key := None;
     d_name := Some "forum"; d_version := Some (VStr "1.0");
     d_config := Some [("set", [("FORUM_SECRET", VStr "abc")])];
     d_patches := None; d_hooks := None; d_templates := None;
     d_command := None |}.

Definition forum_env : env :=
  {| entry_points := []; modules := [];
     plugin_files := [("forum.yml", Mapping forum_data)] |}.

Definition forum_plugin : plugin :=
  {| name := "forum";
     config := [("set", [("FORUM_SECRET", VStr "abc")])];
     patches := []; hooks := []; templates_root := None; command := None;
     source := OfDict (VStr "1.0") |}.

(** Two files, found in the order [b], [a]; both fill the slot [body] and
    the phase [init]. *)
Definition ab_data (n : string) : plugin_data :=
  {| d_refused_key := None;
     d_name := Some n; d_version := Some (VStr "1.0");
     d_config := None;
     d_patches := Some [("body", ("from " ++ n)%string)];
     d_hooks := Some [("init", ServiceList [n])];
     d_templates := None; d_command := None |}.

Definition ab_env : env :=
  {| entry_points := []; modules := [];
     plugin_files := [("b.yml", Mapping (ab_data "b"));
                      ("a.yml", Mapping (ab_data "a"))] |}.

(** A first-party module [x], entry points [x] and [y], files [y] and [z]. *)
Definition xyz_env : env :=
  {| entry_points :=
       [{| ep_name := "x"; ep_load := Ok no_attrs; ep_dist := Some "2.0" |};
        {| ep_name := "y"; ep_load := Ok no_attrs; ep_dist := None |}];
     modules :=
       [("tutorx.plugin",
         {| mod_obj := no_attrs; mod_version := Some (VStr "1.0") |})];
     plugin_files :=
       [("y.yml", Mapping (ab_data "y")); ("z.yml", Mapping (ab_data "z"))] |}.

Definition x_official : plugin :=
  BasePlugin_init "x" no_attrs (OfModule (Some (VStr "1.0"))).

(** The sources of [xyz_env] with the file of the scenario and, after it, a
    file that has a name and no version. *)
Definition broken_data : plugin_data :=
  {| d_refused_key := None;
     d_name := Some "bad"; d_version := None; d_config := None;
     d_patches := None; d_hooks := None; d_templates := None;
     d_command := None |}.

(** The mapping [data] with one more key, [k], that cannot be a field
    name. *)
Definition with_refused_key (k : string) (data : plugin_data) : plugin_data :=
  {| d_refused_key := Some k;
     d_name := d_name data; d_version := d_version data;
     d_config := d_config data; d_patches := d_patches data;
     d_hooks := d_hooks data; d_templates := d_templates data;
     d_command := d_command data |}.

Definition broken_env : env :=
  {| entry_points := entry_points xyz_env;
     modules := modules xyz_env;
     plugin_files := [("forum.yml", Mapping forum_data);
                      ("bad.yml", Mapping broken_data)] |}.


(** * Properties *)

(** ** Lists and sorting *)


Lemma list_in_In (x : string) (l : list string) :
  list_in x l = true <-> In x l.
Proof.
  unfold list_in. rewrite existsb_exists. split.
  - intros (y & Hy & Heq). apply String.eqb_eq in Heq. now subst.
  - intros H. exists x. split; [assumption | apply String.eqb_refl].
Qed.

Lemma list_in_not_In (x : string) (l : list string) :
  list_in x l = false <-> ~ In x l.
Proof.
  rewrite <- list_in_In. destruct (list_in x l); split; congruence.
Qed.

Lemma compare_refl (a : string) : String.compare a a = Eq.
Proof.
  pose proof (String.compare_antisym a a) as H.
  destruct (String.compare a a); simpl in H; congruence.
Qed.

Lemma str_lt_le (a b : string) : str_lt a b -> str_le a b.
Proof.
  unfold str_lt, str_le, String.ltb, String.leb.
  destruct (String.compare a b); congruence.
Qed.

Lemma str_le_cases (a b : string) : str_le a b <-> a = b \/ str_lt a b.
Proof.
  unfold str_lt, str_le, String.ltb, String.leb. split.
  - destruct (String.compare a b) eqn:Hc; intros H; try discriminate.
    + left. now apply String.compare_eq_iff.
    + now right.
  - intros [-> | H].
    + now rewrite compare_refl.
    + destruct (String.compare a b); congruence.
Qed.

Lemma str_lt_trans (a b c : string) : str_lt a b -> str_lt b c -> str_lt a c.
Proof.
  unfold str_lt, String.ltb. intros Hab Hbc.
  destruct (String.compare a b) eqn:H1; try discriminate.
  destruct (String.compare b c) eqn:H2; try discriminate.
  apply String_as_OT.cmp_lt in H1. apply String_as_OT.cmp_lt in H2.
  assert (H3 := @String_as_OT.lt_trans _ _ _ H1 H2).
  apply String_as_OT.cmp_lt in H3. unfold String_as_OT.cmp in H3.
  now rewrite H3.
Qed.

Lemma str_lt_irrefl (a : string) : ~ str_lt a a.
Proof.
  unfold str_lt, String.ltb. now rewrite compare_refl.
Qed.

Lemma str_le_trans (a b c : string) : str_le a b -> str_le b c -> str_le a c.
Proof.
  rewrite !str_le_cases. intros [-> | Hab] [-> | Hbc]; auto.
  right. eapply str_lt_trans; eassumption.
Qed.

Lemma str_le_total (a b : string) : str_le a b \/ str_le b a.
Proof. apply String.leb_total. Qed.


Lemma insert_perm (x : string) (l : list string) :
  Permutation (x :: l) (insert x l).
Proof.
  induction l as [|y l IH]; simpl.
  - reflexivity.
  - destruct (String.leb x y).
    + reflexivity.
    + rewrite perm_swap. now constructor.
Qed.

Lemma sorted_perm (l : list string) : Permutation l (sorted l).
Proof.
  induction l as [|x l IH]; simpl.
  - constructor.
  - rewrite <- insert_perm. now constructor.
Qed.

Lemma insert_sorted (x : string) (l : list string) :
  StronglySorted str_le l -> StronglySorted str_le (insert x l).
Proof.
  induction 1 as [|y l Hs IH Hall]; simpl.
  - repeat constructor.
  - destruct (String.leb x y) eqn:Hxy.
    + constructor.
      * now constructor.
      * constructor; [exact Hxy |].
        eapply Forall_impl; [| exact Hall].
        intros z Hz. eapply str_le_trans; eassumption.
    + constructor; [assumption |].
      assert (Hyx : str_le y x).
      { destruct (str_le_total x y) as [H | H]; [unfold str_le in H; congruence | exact H]. }
      eapply Permutation_Forall; [apply insert_perm |].
      now constructor.
Qed.

Lemma sorted_is_sorted (l : list string) : StronglySorted str_le (sorted l).
Proof.
  induction l as [|x l IH]; simpl.
  - constructor.
  - now apply insert_sorted.
Qed.

(** A sorted list without repetition is strictly sorted. *)
Lemma sorted_NoDup_strict (l : list string) :
  StronglySorted str_le l -> NoDup l -> StronglySorted str_lt l.
Proof.
  induction 1 as [|x l Hs IH Hall]; intros Hnd.
  - constructor.
  - inversion Hnd as [|? ? Hnin Hnd']; subst.
    constructor; [now apply IH |].
    rewrite Forall_forall in *. intros y Hy.
    destruct (proj1 (str_le_cases x y) (Hall y Hy)) as [-> | H]; [contradiction | exact H].
Qed.

(** Two strictly sorted lists with the same elements are equal. *)
Lemma strict_sorted_unique (l1 l2 : list string) :
  StronglySorted str_lt l1 -> StronglySorted str_lt l2 ->
  (forall x, In x l1 <-> In x l2) -> l1 = l2.
Proof.
  intros H1. revert l2.
  induction H1 as [|a l1 Hs1 IH Hall1]; intros l2 H2 Heq.
  - destruct l2 as [|b l2]; [reflexivity |].
    exfalso. apply (proj2 (Heq b)). now left.
  - destruct H2 as [|b l2 Hs2 Hall2].
    + exfalso. apply (proj1 (Heq a)). now left.
    + rewrite Forall_forall in Hall1, Hall2.
      assert (Hab : a = b).
      { destruct (proj1 (Heq a) (or_introl eq_refl)) as [Hba | Hin2]; [now symmetry |].
        destruct (proj2 (Heq b) (or_introl eq_refl)) as [Hba | Hin1]; [assumption |].
        exfalso. apply (@str_lt_irrefl a).
        eapply str_lt_trans; [apply Hall1, Hin1 | apply Hall2, Hin2]. }
      subst b. f_equal. apply IH; [assumption |].
      intros x. split; intros Hx.
      * destruct (proj1 (Heq x) (or_intror Hx)) as [<- | H]; [| exact H].
        exfalso. apply (@str_lt_irrefl a). now apply Hall1.
      * destruct (proj2 (Heq x) (or_intror Hx)) as [<- | H]; [| exact H].
        exfalso. apply (@str_lt_irrefl a). now apply Hall2.
Qed.

Lemma sorted_strict (l : list string) :
  NoDup l -> StronglySorted str_lt (sorted l).
Proof.
  intros Hnd. apply sorted_NoDup_strict; [apply sorted_is_sorted |].
  eapply Permutation_NoDup; [apply sorted_perm | exact Hnd].
Qed.

Lemma filter_all (A : Type) (f : A -> bool) (l : list A) :
  (forall x, In x l -> f x = true) -> filter f l = l.
Proof.
  induction l as [|a l IH]; simpl; intros H; [reflexivity |].
  rewrite (H a (or_introl eq_refl)). f_equal. apply IH.
  intros x Hx. apply H. now right.
Qed.

Lemma list_remove_filter_absent (x : string) (l : list string) :
  ~ In x l -> list_remove x l = l.
Proof.
  induction l as [|y l IH]; simpl; intros Hn; [reflexivity |].
  destruct (String.eqb_spec x y) as [-> | _].
  - exfalso. apply Hn. now left.
  - f_equal. apply IH. intros H. apply Hn. now right.
Qed.

Lemma filter_list_remove (x : string) (l : list string) :
  filter (fun y => negb (String.eqb x y)) (list_remove x l)
  = filter (fun y => negb (String.eqb x y)) l.
Proof.
  induction l as [|y l IH]; simpl; [reflexivity |].
  destruct (String.eqb_spec x y) as [-> | Hne]; simpl.
  - reflexivity.
  - destruct (String.eqb_spec x y); [contradiction |]. simpl. now rewrite IH.
Qed.

Lemma list_remove_length (x : string) (l : list string) :
  In x l -> S (length (list_remove x l)) = length l.
Proof.
  induction l as [|y l IH]; simpl; intros Hin; [contradiction |].
  destruct (String.eqb_spec x y) as [-> | Hne]; [reflexivity |].
  simpl. f_equal. apply IH. destruct Hin; [congruence | assumption].
Qed.

(** The loop ends because its condition fails, and it has then removed
    every occurrence. *)
Lemma remove_while_filter (turns : nat) (x : string) (l : list string) :
  length l <= turns ->
  remove_while turns x l = filter (fun y => negb (String.eqb x y)) l.
Proof.
  revert l. induction turns as [|t IH]; intros l Hlen.
  - destruct l; [reflexivity | simpl in Hlen; lia].
  - simpl. destruct (list_in x l) eqn:Hin.
    + apply list_in_In in Hin.
      rewrite IH; [apply filter_list_remove |].
      pose proof (list_remove_length _ _ Hin). lia.
    + apply list_in_not_In in Hin. symmetry. apply filter_all.
      intros y Hy.
      destruct (String.eqb_spec x y) as [-> | _]; [contradiction | reflexivity].
Qed.

(** ** Dictionaries *)

Section DictFacts.
Variable V : Type.
Implicit Types (d : dict V) (k : string) (v : V).

Lemma dict_get_set d k v k' :
  dict_get (dict_set d k v) k'
  = if String.eqb k k' then Some v else dict_get d k'.
Proof.
  induction d as [|[k0 v0] d IH]; simpl.
  - reflexivity.
  - destruct (String.eqb_spec k0 k) as [-> | Hne]; simpl.
    + destruct (String.eqb k k'); reflexivity.
    + rewrite IH. destruct (String.eqb_spec k0 k') as [-> | Hne'].
      * destruct (String.eqb_spec k k'); [congruence | reflexivity].
      * reflexivity.
Qed.

Lemma dict_get_None d k : dict_get d k = None <-> ~ In k (dict_keys d).
Proof.
  induction d as [|[k0 v0] d IH]; simpl.
  - tauto.
  - destruct (String.eqb_spec k0 k) as [-> | Hne].
    + split; [discriminate | intros H; exfalso; apply H; now left].
    + rewrite IH. tauto.
Qed.

Lemma dict_contains_get d k :
  dict_contains d k = false <-> dict_get d k = None.
Proof. unfold dict_contains. now rewrite list_in_not_In, dict_get_None. Qed.

Lemma dict_get_default_set d k v k' (dflt : V) :
  dict_get_default (dict_set d k v) k' dflt
  = if String.eqb k k' then v else dict_get_default d k' dflt.
Proof.
  unfold dict_get_default. rewrite dict_get_set.
  destruct (String.eqb k k'); reflexivity.
Qed.

Lemma dict_keys_pop d k k' :
  In k' (dict_keys (dict_pop d k)) <-> k' <> k /\ In k' (dict_keys d).
Proof.
  unfold dict_keys, dict_pop. rewrite !in_map_iff. split.
  - intros ([k0 v0] & <- & Hin). apply filter_In in Hin as [Hin Hne].
    simpl in *. split.
    + destruct (String.eqb_spec k0 k); [discriminate | assumption].
    + exists (k0, v0). auto.
  - intros (Hne & [k0 v0] & <- & Hin). exists (k0, v0). split; [reflexivity |].
    apply filter_In. split; [assumption |]. simpl in *.
    destruct (String.eqb_spec k0 k); [contradiction | reflexivity].
Qed.

Lemma dict_contains_pop_same d k : dict_contains (dict_pop d k) k = false.
Proof.
  unfold dict_contains. apply list_in_not_In. rewrite dict_keys_pop. tauto.
Qed.

Lemma dict_get_pop_other d k k' :
  k <> k' -> dict_get (dict_pop d k) k' = dict_get d k'.
Proof.
  intros Hne. induction d as [|[k0 v0] d IH]; simpl; [reflexivity |].
  destruct (String.eqb_spec k0 k) as [-> | Hne0]; simpl.
  - destruct (String.eqb_spec k k'); [contradiction | exact IH].
  - rewrite IH. reflexivity.
Qed.

Lemma dict_set_absent d k v :
  ~ In k (dict_keys d) -> dict_set d k v = d ++ [(k, v)].
Proof.
  induction d as [|[k0 v0] d IH]; simpl; intros Hn; [reflexivity |].
  destruct (String.eqb_spec k0 k) as [-> | Hne].
  - exfalso. apply Hn. now left.
  - f_equal. apply IH. intros H. apply Hn. now right.
Qed.

Lemma dict_keys_set d k v :
  dict_keys (dict_set d k v)
  = if dict_contains d k then dict_keys d else dict_keys d ++ [k].
Proof.
  destruct (dict_contains d k) eqn:Hc.
  - apply list_in_In in Hc.
    induction d as [|[k0 v0] d IH]; simpl in *; [contradiction |].
    destruct (String.eqb_spec k0 k) as [-> | Hne]; simpl; [reflexivity |].
    f_equal. apply IH. destruct Hc; [contradiction | assumption].
  - apply list_in_not_In in Hc. rewrite dict_set_absent by assumption.
    unfold dict_keys. now rewrite map_app.
Qed.

Lemma dict_set_wf d k v : dict_wf d -> dict_wf (dict_set d k v).
Proof.
  unfold dict_wf. rewrite dict_keys_set. intros Hwf.
  destruct (dict_contains d k) eqn:Hc; [assumption |].
  apply list_in_not_In in Hc.
  apply NoDup_app; [assumption | repeat constructor; simpl; tauto |].
  intros x Hx [<- | []]. contradiction.
Qed.

Lemma dict_get_In d k v : dict_wf d -> In (k, v) d -> dict_get d k = Some v.
Proof.
  unfold dict_wf. induction d as [|[k0 v0] d IH]; simpl; intros Hwf Hin.
  - contradiction.
  - inversion Hwf as [|? ? Hnin Hwf']; subst.
    destruct Hin as [Heq | Hin].
    + inversion Heq; subst. now rewrite String.eqb_refl.
    + destruct (String.eqb_spec k0 k) as [-> | Hne]; [| now apply IH].
      exfalso. apply Hnin. change (In (fst (k, v)) (map fst d)).
      now apply in_map.
Qed.

(** Looking up the keys of a dictionary, in their order, gives back its
    items. *)
Lemma lookup_keys d :
  dict_wf d ->
  flat_map (fun k => match dict_get d k with
                     | Some v => [(k, v)]
                     | None => []
                     end) (dict_keys d) = d.
Proof.
  intros Hwf.
  assert (H : forall d', incl d' d ->
    flat_map (fun k => match dict_get d k with
                       | Some v => [(k, v)]
                       | None => []
                       end) (dict_keys d') = d').
  { induction d' as [|[k0 v0] d' IH]; simpl; intros Hincl; [reflexivity |].
    rewrite (@dict_get_In d k0 v0 Hwf) by (apply Hincl; now left).
    simpl. f_equal. apply IH. intros x Hx. apply Hincl. now right. }
  apply H. apply incl_refl.
Qed.
End DictFacts.

(** ** The registry *)


Lemma filter_filter (A : Type) (f g : A -> bool) (l : list A) :
  filter f (filter g l) = filter (fun x => f x && g x) l.
Proof.
  induction l as [|a l IH]; simpl; [reflexivity |].
  destruct (g a); simpl; rewrite ?IH; destruct (f a); reflexivity.
Qed.

Lemma yield_new_filter (seen : list string) (ps : list plugin) :
  fst (yield_new seen ps)
  = filter (fun p => negb (list_in (name p) seen)) (dedup_by_name ps).
Proof.
  revert seen. induction ps as [|p ps IH]; intros seen; simpl; [reflexivity |].
  destruct (list_in (name p) seen) eqn:Hin; simpl.
  - rewrite IH, filter_filter. apply filter_ext_in. intros q _.
    destruct (String.eqb_spec (name q) (name p)) as [Heq | _]; simpl.
    + rewrite Heq, Hin. reflexivity.
    + now rewrite andb_true_r.
  - destruct (yield_new (name p :: seen) ps) as [ys seen'] eqn:Hy. simpl.
    f_equal. change ys with (fst (ys, seen')). rewrite <- Hy, IH, filter_filter.
    apply filter_ext_in. intros q _. simpl. rewrite String.eqb_sym.
    destruct (String.eqb (name p) (name q)); simpl;
      [now rewrite andb_false_r | now rewrite andb_true_r].
Qed.

Lemma yield_new_nil (ps : list plugin) :
  fst (yield_new [] ps) = dedup_by_name ps.
Proof.
  rewrite yield_new_filter. apply filter_all. reflexivity.
Qed.

Lemma yield_new_app (seen : list string) (l1 l2 : list plugin) :
  yield_new seen (l1 ++ l2)
  = (fst (yield_new seen l1) ++ fst (yield_new (snd (yield_new seen l1)) l2),
     snd (yield_new (snd (yield_new seen l1)) l2)).
Proof.
  revert seen. induction l1 as [|p l1 IH]; intros seen; simpl.
  - now destruct (yield_new seen l2).
  - destruct (list_in (name p) seen); [apply IH |].
    rewrite IH. destruct (yield_new (name p :: seen) l1) as [ys s]. reflexivity.
Qed.

Lemma yield_new_seen (seen : list string) (ps : list plugin) (x : string) :
  In x (snd (yield_new seen ps)) <-> In x seen \/ In x (map name ps).
Proof.
  revert seen. induction ps as [|p ps IH]; intros seen; simpl; [tauto |].
  destruct (list_in (name p) seen) eqn:Hin.
  - rewrite IH. apply list_in_In in Hin. split; [tauto |].
    intros [H | [<- | H]]; tauto.
  - destruct (yield_new (name p :: seen) ps) as [ys s] eqn:Hy. simpl.
    change s with (snd (ys, s)). rewrite <- Hy, IH. simpl. tauto.
Qed.

Lemma yield_new_covered (seen : list string) (ps : list plugin) :
  (forall p, In p ps -> In (name p) seen) -> yield_new seen ps = ([], seen).
Proof.
  induction ps as [|p ps IH]; simpl; intros H; [reflexivity |].
  rewrite (proj2 (list_in_In (name p) seen)) by (apply H; now left).
  apply IH. intros q Hq. apply H. now right.
Qed.

(** Visiting a list again after it has grown yields the new part only. *)
Lemma yield_new_again (seen : list string) (l a : list plugin) :
  let s := snd (yield_new seen l) in
  yield_new s (l ++ a) = yield_new s a
  /\ fst (yield_new seen (l ++ a)) = fst (yield_new seen l) ++ fst (yield_new s a)
  /\ snd (yield_new seen (l ++ a)) = snd (yield_new s a).
Proof.
  intros s. split; [| rewrite yield_new_app; split; reflexivity].
  rewrite yield_new_app.
  rewrite yield_new_covered.
  - simpl. now destruct (yield_new s a).
  - intros p Hp. apply yield_new_seen. right. now apply in_map.
Qed.

Lemma dedup_by_name_In (ps : list plugin) (p : plugin) :
  In p (dedup_by_name ps) -> In p ps.
Proof.
  induction ps as [|q ps IH]; simpl; [tauto |].
  intros [-> | H]; [now left |].
  apply filter_In in H as [H _]. right. now apply IH.
Qed.

Lemma dedup_by_name_NoDup (ps : list plugin) :
  NoDup (map name (dedup_by_name ps)).
Proof.
  induction ps as [|p ps IH]; simpl; [constructor |].
  constructor.
  - rewrite in_map_iff. intros (q & Heq & Hq).
    apply filter_In in Hq as [_ Hq]. rewrite Heq, String.eqb_refl in Hq.
    discriminate.
  - clear -IH. induction (dedup_by_name ps) as [|q l IHl]; simpl; [constructor |].
    inversion IH as [|? ? Hnin Hnd]; subst.
    destruct (negb (String.eqb (name q) (name p))); simpl; [| now apply IHl].
    constructor; [| now apply IHl].
    rewrite in_map_iff. intros (q' & Heq & Hq'). apply Hnin.
    apply filter_In in Hq' as [Hq' _]. rewrite <- Heq. now apply in_map.
Qed.

(** Every name found by some strategy is in the sequence. *)
Lemma dedup_by_name_names (ps : list plugin) (n : string) :
  In n (map name (dedup_by_name ps)) <-> In n (map name ps).
Proof.
  induction ps as [|p ps IH]; simpl; [tauto |].
  rewrite <- IH. destruct (String.eqb_spec (name p) n) as [Heq | Hne]; [tauto |].
  rewrite !in_map_iff. split.
  - intros [H | (q & Heq & Hq)]; [tauto |].
    apply filter_In in Hq as [Hq _]. right. now exists q.
  - intros [H | (q & Heq & Hq)]; [tauto |]. right. exists q. split; [assumption |].
    apply filter_In. split; [assumption |].
    destruct (String.eqb_spec (name q) (name p)); [congruence | reflexivity].
Qed.

(** The record kept for a name is the first one with that name. *)
Lemma dedup_by_name_first (ps : list plugin) (p : plugin) :
  In p (dedup_by_name ps) ->
  find (fun q => String.eqb (name q) (name p)) ps = Some p.
Proof.
  induction ps as [|q ps IH]; simpl; [tauto |].
  intros [-> | H].
  - now rewrite String.eqb_refl.
  - apply filter_In in H as [H Hne].
    rewrite String.eqb_sym. destruct (String.eqb (name p) (name q)); [discriminate |].
    now apply IH.
Qed.

Lemma fold_append_INSTALLED (c : PluginClass) (ps : list plugin) (r : registry) :
  fold_left (fun r' p => INSTALLED_append c p r') ps r
  = {| BasePlugin_INSTALLED := BasePlugin_INSTALLED r ++ ps;
       official_IS_LOADED := official_IS_LOADED r;
       entrypoint_IS_LOADED := entrypoint_IS_LOADED r;
       dict_IS_LOADED := dict_IS_LOADED r |}.
Proof.
  revert r. induction ps as [|p ps IH]; intros r; simpl.
  - rewrite app_nil_r. now destruct r.
  - rewrite IH. simpl. unfold INSTALLED. now rewrite <- app_assoc.
Qed.


Lemma visited_INSTALLED (c : PluginClass) (l : list plugin) (r : registry) :
  BasePlugin_INSTALLED (visited c l r) = l.
Proof. now destruct c. Qed.

Lemma visited_IS_LOADED (c c' : PluginClass) (l : list plugin) (r : registry) :
  IS_LOADED c' (visited c l r)
  = if PluginClass_eqb c c' then true else IS_LOADED c' r.
Proof. now destruct c, c'. Qed.

Lemma pending_visited (E : env) (c c' : PluginClass) (l : list plugin)
  (r : registry) :
  pending E c' (visited c l r)
  = if PluginClass_eqb c c' then [] else pending E c' r.
Proof.
  unfold pending. rewrite visited_IS_LOADED.
  now destruct (PluginClass_eqb c c').
Qed.

Lemma visited_visited (c c' : PluginClass) (l l' : list plugin) (r : registry) :
  visited c' l' (visited c l r) = visited c' l' (visited c l' r).
Proof. now destruct c, c'. Qed.

Section RegistryFacts.
Variable E : env.

(** One visit of a class either raises, having yielded nothing, or yields
    the whole of [INSTALLED] as it is after the visit. *)
Lemma BasePlugin_iter_installed_cases (c : PluginClass) (r : registry) :
  (exists err r1, BasePlugin_iter_installed E c r = (([], Some err), r1))
  \/ BasePlugin_iter_installed E c r
     = ((BasePlugin_INSTALLED r ++ pending E c r, None),
        visited c (BasePlugin_INSTALLED r ++ pending E c r) r).
Proof.
  unfold BasePlugin_iter_installed, pending, visited.
  destruct (IS_LOADED c r) eqn:Hl; simpl.
  - right. rewrite app_nil_r. unfold INSTALLED. f_equal.
    destruct r, c; simpl in *; congruence.
  - destruct (iter_load E c) as [ps [err|]]; simpl.
    + left. eauto.
    + right. rewrite fold_append_INSTALLED. unfold INSTALLED.
      destruct c; reflexivity.
Qed.

Lemma pending_official (r : registry) : pending E OfficialPlugin r = [].
Proof. unfold pending. now destruct (IS_LOADED OfficialPlugin r). Qed.

(** A visit of all classes that ends without an exception yields the
    deduplicated [INSTALLED] list, as it is afterwards, and leaves every
    class loaded. *)
Lemma Plugins_iter_installed_inv (r r1 : registry) (ys : list plugin) :
  Plugins_iter_installed E r = ((ys, None), r1) ->
  ys = dedup_by_name (BasePlugin_INSTALLED r1)
  /\ all_loaded r1
  /\ BasePlugin_INSTALLED r1
     = BasePlugin_INSTALLED r ++ pending E EntrypointPlugin r
       ++ pending E DictPlugin r.
Proof.
  unfold Plugins_iter_installed, PLUGIN_CLASSES.
  cbn [iter_installed_from]. intros H.
  destruct (BasePlugin_iter_installed_cases OfficialPlugin r)
    as [(err & r' & Ho) | Ho]; rewrite Ho in H; clear Ho;
    [cbn in H; discriminate |].
  rewrite pending_official, app_nil_r in H.
  set (L0 := BasePlugin_INSTALLED r) in *.
  destruct (yield_new [] L0) as [y0 s0] eqn:Hy0.
  destruct (BasePlugin_iter_installed_cases EntrypointPlugin
              (visited OfficialPlugin L0 r))
    as [(err & r' & He) | He]; rewrite He in H; clear He;
    [cbn in H; discriminate |].
  rewrite !visited_INSTALLED, !pending_visited in H.
  cbn [PluginClass_eqb] in H.
  set (A := pending E EntrypointPlugin r) in *.
  destruct (yield_new s0 (L0 ++ A)) as [y1 s1] eqn:Hy1.
  destruct (BasePlugin_iter_installed_cases DictPlugin
              (visited EntrypointPlugin (L0 ++ A) (visited OfficialPlugin L0 r)))
    as [(err & r' & Hd) | Hd]; rewrite Hd in H; clear Hd;
    [cbn in H; discriminate |].
  rewrite !visited_INSTALLED, !pending_visited in H.
  cbn [PluginClass_eqb] in H.
  set (B := pending E DictPlugin r) in *.
  destruct (yield_new s1 ((L0 ++ A) ++ B)) as [y2 s2] eqn:Hy2.
  cbn in H. inversion H; subst ys r1; clear H.
  cbn [BasePlugin_INSTALLED].
  split; [| split].
  - rewrite app_nil_r, <- !yield_new_nil.
    pose proof (yield_new_again [] L0 A) as (Ha1 & Ha2 & Ha3).
    rewrite Hy0 in Ha1, Ha2, Ha3. cbn [fst snd] in Ha1, Ha2, Ha3.
    rewrite Hy1 in Ha1.
    pose proof (yield_new_again [] (L0 ++ A) B) as (Hb1 & Hb2 & _).
    rewrite Ha3, <- Ha1 in Hb1, Hb2. cbn [fst snd] in Hb1, Hb2.
    rewrite Hy2 in Hb1. rewrite <- Hb1, Ha2, <- Ha1 in Hb2.
    cbn [fst snd] in Hb2. rewrite Hb2. now rewrite app_assoc.
  - intros c. now destruct c.
  - now rewrite app_assoc.
Qed.
End RegistryFacts.

Lemma registry_ext (r r' : registry) :
  BasePlugin_INSTALLED r = BasePlugin_INSTALLED r' ->
  (forall c, IS_LOADED c r = IS_LOADED c r') -> r = r'.
Proof.
  intros Hl Hf. destruct r, r'; simpl in *.
  pose proof (Hf OfficialPlugin). pose proof (Hf EntrypointPlugin).
  pose proof (Hf DictPlugin). simpl in *. congruence.
Qed.

Section RegistryRuns.
Variable E : env.


Lemma BasePlugin_iter_installed_ok (c : PluginClass) (r : registry) :
  load_ok E c r ->
  BasePlugin_iter_installed E c r
  = ((BasePlugin_INSTALLED r ++ pending E c r, None),
     visited c (BasePlugin_INSTALLED r ++ pending E c r) r).
Proof.
  intros Hok.
  destruct (BasePlugin_iter_installed_cases E c r) as [(err & r1 & H) | H];
    [| exact H].
  exfalso. unfold BasePlugin_iter_installed in H.
  destruct Hok as [Hl | Hn].
  - rewrite Hl in H. simpl in H. discriminate.
  - destruct (IS_LOADED c r); simpl in H; [discriminate |].
    destruct (iter_load E c) as [ps e]. simpl in Hn. subst e. discriminate.
Qed.

Lemma load_ok_visited (c c' : PluginClass) (l : list plugin) (r : registry) :
  load_ok E c' r -> load_ok E c' (visited c l r).
Proof.
  unfold load_ok. rewrite visited_IS_LOADED. intros [H | H]; [| now right].
  left. rewrite H. now destruct (PluginClass_eqb c c').
Qed.

Lemma Plugins_iter_installed_returns (r : registry) :
  load_ok E EntrypointPlugin r -> load_ok E DictPlugin r ->
  exists ys r1, Plugins_iter_installed E r = ((ys, None), r1).
Proof.
  intros He Hd. unfold Plugins_iter_installed, PLUGIN_CLASSES.
  cbn [iter_installed_from].
  rewrite BasePlugin_iter_installed_ok by (right; reflexivity).
  destruct (yield_new [] _) as [y0 s0].
  rewrite BasePlugin_iter_installed_ok by now apply load_ok_visited.
  destruct (yield_new s0 _) as [y1 s1].
  rewrite BasePlugin_iter_installed_ok by now repeat apply load_ok_visited.
  destruct (yield_new s1 _) as [y2 s2].
  cbn. eauto.
Qed.

(** The first visit after the sources were read without an exception. *)
Lemma Plugins_iter_installed_ok (r : registry) :
  load_ok E EntrypointPlugin r -> load_ok E DictPlugin r ->
  exists r1,
    Plugins_iter_installed E r
    = ((dedup_by_name (BasePlugin_INSTALLED r ++ pending E EntrypointPlugin r
                       ++ pending E DictPlugin r), None), r1)
    /\ all_loaded r1
    /\ BasePlugin_INSTALLED r1
       = BasePlugin_INSTALLED r ++ pending E EntrypointPlugin r
         ++ pending E DictPlugin r.
Proof.
  intros He Hd.
  destruct (Plugins_iter_installed_returns He Hd) as (ys & r1 & H).
  pose proof H as H'. apply Plugins_iter_installed_inv in H' as (Hys & Hall & HL).
  exists r1. rewrite H, Hys, HL. auto.
Qed.

(** Later visits replay the list and change nothing. *)
Lemma Plugins_iter_installed_replay (r : registry) :
  all_loaded r ->
  Plugins_iter_installed E r
  = ((dedup_by_name (BasePlugin_INSTALLED r), None), r).
Proof.
  intros Hall.
  destruct (@Plugins_iter_installed_ok r) as (r1 & H & Hall1 & HL);
    try (left; apply Hall).
  unfold pending in H, HL. rewrite !Hall, !app_nil_r in H, HL.
  rewrite H. f_equal. apply registry_ext; [exact HL |].
  intros c. now rewrite Hall, Hall1.
Qed.

(** [is_installed] against the sequence of a whole visit. *)
Lemma is_installed_from_absent (n : string) (cs : list PluginClass)
  (seen : list string) (r r1 : registry) (ys : list plugin) :
  iter_installed_from E cs seen r = ((ys, None), r1) ->
  ~ In n (map name ys) ->
  is_installed_from E n cs seen r = (Ok false, r1).
Proof.
  revert seen r ys. induction cs as [|c cs IH]; intros seen r ys; simpl.
  - intros H _. now inversion H.
  - destruct (BasePlugin_iter_installed E c r) as [[ps e] r0].
    destruct (yield_new seen ps) as [y s].
    destruct e as [err|]; [discriminate |].
    destruct (iter_installed_from E cs s r0) as [[zs e'] r2] eqn:Hrest.
    intros H Hn. inversion H; subst ys e' r2; clear H.
    rewrite map_app, in_app_iff in Hn.
    replace (existsb (fun p => String.eqb n (name p)) y) with false.
    + eapply IH; [exact Hrest | tauto].
    + symmetry. apply not_true_is_false. rewrite existsb_exists.
      intros (p & Hp & Heq). apply String.eqb_eq in Heq. apply Hn. left.
      subst n. now apply in_map.
Qed.

Lemma is_installed_from_present (n : string) (cs : list PluginClass)
  (seen : list string) (r r1 : registry) (ys : list plugin) :
  iter_installed_from E cs seen r = ((ys, None), r1) ->
  In n (map name ys) ->
  fst (is_installed_from E n cs seen r) = Ok true.
Proof.
  revert seen r ys. induction cs as [|c cs IH]; intros seen r ys; simpl.
  - intros H Hin. inversion H; subst. contradiction.
  - destruct (BasePlugin_iter_installed E c r) as [[ps e] r0].
    destruct (yield_new seen ps) as [y s].
    destruct e as [err|]; [discriminate |].
    destruct (iter_installed_from E cs s r0) as [[zs e'] r2] eqn:Hrest.
    intros H Hin. inversion H; subst ys e' r2; clear H.
    destruct (existsb (fun p => String.eqb n (name p)) y) eqn:Hex;
      [reflexivity |].
    eapply IH; [exact Hrest |].
    rewrite map_app, in_app_iff in Hin. destruct Hin as [Hin | Hin];
      [| exact Hin].
    exfalso. apply in_map_iff in Hin as (p & Heq & Hp).
    apply not_true_iff_false in Hex. apply Hex. apply existsb_exists.
    exists p. split; [assumption |]. subst n. apply String.eqb_refl.
Qed.

Lemma is_installed_absent (n : string) (r r1 : registry) (ys : list plugin) :
  Plugins_iter_installed E r = ((ys, None), r1) ->
  ~ In n (map name ys) ->
  is_installed E n r = (Ok false, r1).
Proof. apply is_installed_from_absent. Qed.

Lemma is_installed_present (n : string) (r r1 : registry) (ys : list plugin) :
  Plugins_iter_installed E r = ((ys, None), r1) ->
  In n (map name ys) ->
  fst (is_installed E n r) = Ok true.
Proof. apply is_installed_from_present. Qed.
End RegistryRuns.

(** ** [Plugins.clear] and the caches of the classes *)

(** C1. [Plugins.clear] empties [INSTALLED] and leaves every [_IS_LOADED]
    flag as it was: no class returns to its initial state once it has been
    visited. With the one file [forum.yml], a first visit yields [forum];
    after [Plugins.clear] the next visit yields nothing and reads no
    source, although the file is still there. *)
Theorem clear_keeps_loaded_flags :
  (forall r c, IS_LOADED c (Plugins_clear r) = IS_LOADED c r)
  /\ (forall r c, INSTALLED c (Plugins_clear r) = [])
  /\ fst (Plugins_iter_installed forum_env initial_registry)
     = ([forum_plugin], None)
  /\ (let r1 := snd (Plugins_iter_installed forum_env initial_registry) in
      Plugins_clear r1 <> initial_registry
      /\ Plugins_iter_installed forum_env (Plugins_clear r1)
         = (([], None), Plugins_clear r1)).
Proof.
  split; [intros r []; reflexivity |].
  split; [reflexivity |].
  split; [reflexivity |].
  split; [discriminate | reflexivity].
Qed.

(** After a visit of all classes, [Plugins.clear] leaves a registry whose
    next visit yields nothing, whatever the sources hold. *)
Lemma iter_installed_after_clear (E : env) (r : registry) :
  all_loaded r ->
  Plugins_iter_installed E (Plugins_clear r) = (([], None), Plugins_clear r).
Proof.
  intros Hall. rewrite Plugins_iter_installed_replay; [reflexivity |].
  intros c. specialize (Hall c). destruct c; exact Hall.
Qed.

(** Whatever is loaded as a first-party plugin is in [cls.INSTALLED] for
    every class [cls]. *)
Lemma OfficialPlugin_load_shared (E : env) (n : string) (p : plugin)
  (r r' : registry) (c : PluginClass) :
  OfficialPlugin_load E n r = (Ok p, r') -> In p (INSTALLED c r').
Proof.
  unfold OfficialPlugin_load. destruct (OfficialPlugin_init E n); [| discriminate].
  intros H. inversion H; subst. unfold INSTALLED. simpl.
  apply in_or_app. right. now left.
Qed.

(** C2. [INSTALLED] is one list for all classes: the record appended by
    [OfficialPlugin.load] is in [EntrypointPlugin.INSTALLED] and in
    [DictPlugin.INSTALLED], and [EntrypointPlugin.iter_installed] yields
    it, although no entry point exists. The [_IS_LOADED] flags are kept
    apart. *)
Theorem official_load_reaches_other_classes :
  let E := {| entry_points := []; modules := modules xyz_env;
              plugin_files := [] |} in
  let r1 := snd (OfficialPlugin_load E "x" initial_registry) in
  fst (OfficialPlugin_load E "x" initial_registry) = Ok x_official
  /\ INSTALLED EntrypointPlugin r1 = [x_official]
  /\ INSTALLED DictPlugin r1 = [x_official]
  /\ iter_load E EntrypointPlugin = ([], None)
  /\ fst (BasePlugin_iter_installed E EntrypointPlugin r1)
     = ([x_official], None)
  /\ IS_LOADED DictPlugin
       (snd (BasePlugin_iter_installed E EntrypointPlugin r1)) = false.
Proof. repeat split. Qed.

(** ** Deduplication and priority *)

Lemma load_official_INSTALLED (E : env) (ns : list string) (o : list plugin)
  (r r0 : registry) :
  load_official E ns r = (Ok o, r0) ->
  BasePlugin_INSTALLED r0 = BasePlugin_INSTALLED r ++ o
  /\ (forall c, IS_LOADED c r0 = IS_LOADED c r)
  /\ Forall (fun p => class_of p = OfficialPlugin) o.
Proof.
  revert o r. induction ns as [|n ns IH]; intros o r; simpl.
  - intros H. inversion H; subst. rewrite app_nil_r. auto.
  - unfold OfficialPlugin_load, OfficialPlugin_init.
    destruct (dict_get (modules E) _) as [m|]; [| discriminate].
    destruct (load_official E ns _) as [[ps | e] r2] eqn:Hrest; [| discriminate].
    intros H. inversion H; subst o r2; clear H.
    apply IH in Hrest as (HL & Hf & Hc). simpl in HL.
    split; [| split].
    + rewrite HL. unfold INSTALLED. now rewrite <- app_assoc.
    + intros c. rewrite Hf. now destruct c.
    + constructor; [reflexivity | assumption].
Qed.

Lemma EntrypointPlugin_iter_load_class (eps : list entrypoint) :
  Forall (fun p => class_of p = EntrypointPlugin)
         (fst (EntrypointPlugin_iter_load eps)).
Proof.
  induction eps as [|ep eps IH]; simpl; [constructor |].
  unfold EntrypointPlugin_init. destruct (ep_load ep); [| constructor].
  destruct (EntrypointPlugin_iter_load eps). simpl. now constructor.
Qed.

Lemma DictPlugin_iter_load_class (files : list (string * document)) :
  Forall (fun p => class_of p = DictPlugin) (fst (DictPlugin_iter_load files)).
Proof.
  induction files as [|[path doc] files IH]; simpl; [constructor |].
  destruct doc as [|data]; [constructor |].
  unfold DictPlugin_init.
  destruct (d_refused_key data); [constructor |].
  destruct (d_name data); [| constructor].
  destruct (d_version data); [| constructor].
  destruct (DictPlugin_iter_load files). simpl. now constructor.
Qed.

(** In a list ordered by class, the first record with a name has the
    smallest rank among the records with that name. *)
Lemma find_first_rank (l : list plugin) (f : plugin -> bool) (p q : plugin) :
  StronglySorted (fun a b => rank (class_of a) <= rank (class_of b)) l ->
  find f l = Some p -> In q l -> f q = true ->
  rank (class_of p) <= rank (class_of q).
Proof.
  induction 1 as [|a l Hs IH Hall]; simpl; [discriminate |].
  intros Hfind Hq Hfq. destruct (f a) eqn:Hfa.
  - inversion Hfind; subst a. destruct Hq as [-> | Hq]; [lia |].
    rewrite Forall_forall in Hall. now apply Hall.
  - destruct Hq as [-> | Hq]; [congruence |]. now apply IH.
Qed.

Lemma by_class_sorted (o es ds : list plugin) :
  Forall (fun p => class_of p = OfficialPlugin) o ->
  Forall (fun p => class_of p = EntrypointPlugin) es ->
  Forall (fun p => class_of p = DictPlugin) ds ->
  StronglySorted (fun a b => rank (class_of a) <= rank (class_of b))
                 (o ++ es ++ ds).
Proof.
  intros Ho He Hd.
  assert (Hds : StronglySorted
            (fun a b => rank (class_of a) <= rank (class_of b)) ds).
  { induction Hd as [|d ds Hc Hd IH]; constructor; [assumption |].
    eapply Forall_impl; [| exact Hd]. simpl. intros q Hq. rewrite Hc, Hq. lia. }
  assert (Hes : StronglySorted
            (fun a b => rank (class_of a) <= rank (class_of b)) (es ++ ds)).
  { induction He as [|e es Hc He IH]; simpl; [assumption |].
    constructor; [assumption |]. apply Forall_app. split.
    - eapply Forall_impl; [| exact He]. simpl. intros q Hq. rewrite Hc, Hq. lia.
    - eapply Forall_impl; [| exact Hd]. simpl. intros q Hq. rewrite Hc, Hq.
      simpl. lia. }
  induction Ho as [|p o Hc Ho IH]; simpl; [assumption |].
  constructor; [assumption |].
  apply Forall_forall. intros q _. rewrite Hc. simpl. lia.
Qed.

(** C3. [x] is an entry point and a first-party module. When the registry
    has been visited before [OfficialPlugin.load] is called for [x], the
    first-party record goes behind the cached records in the one list
    [INSTALLED], and [Plugins.iter_installed] yields the record of the
    entry point for the name [x]: of two strategies with a record of one
    name, the one later in the order wins. Loaded before the first visit,
    the first-party record is the one yielded. *)
Theorem late_load_yields_lower_priority :
  let r := snd (Plugins_iter_installed xyz_env initial_registry) in
  let r' := snd (OfficialPlugin_load xyz_env "x" r) in
  let r0 := snd (OfficialPlugin_load xyz_env "x" initial_registry) in
  fst (OfficialPlugin_load xyz_env "x" r) = Ok x_official
  /\ class_of x_official = OfficialPlugin
  /\ In x_official (INSTALLED OfficialPlugin r')
  /\ snd (fst (Plugins_iter_installed xyz_env r')) = None
  /\ map (fun p => (name p, class_of p))
         (fst (fst (Plugins_iter_installed xyz_env r')))
     = [("x", EntrypointPlugin); ("y", EntrypointPlugin); ("z", DictPlugin)]
  /\ map (fun p => (name p, class_of p))
         (fst (fst (Plugins_iter_installed xyz_env r0)))
     = [("x", OfficialPlugin); ("y", EntrypointPlugin); ("z", DictPlugin)].
Proof.
  cbv zeta. split; [reflexivity |]. split; [reflexivity |].
  split; [simpl; tauto |]. repeat split.
Qed.

(** X19. Once the first-party plugins [ns] are loaded into a registry that
    was never visited, and the two scanned sources can be read,
    [Plugins.iter_installed] yields the records of the
    three strategies, taken in the order first-party, entry points, files,
    with the first record of every name kept and the later ones dropped;
    the next call yields the same sequence. Every name is there once, and
    no strategy earlier in the order has a record of the name of a yielded
    record. *)
Theorem iter_installed_dedup_priority (E : env) (ns : list string)
  (o es ds : list plugin) (r0 : registry) :
  load_official E ns initial_registry = (Ok o, r0) ->
  iter_load E EntrypointPlugin = (es, None) ->
  iter_load E DictPlugin = (ds, None) ->
  exists r1,
    Plugins_iter_installed E r0 = ((dedup_by_name (o ++ es ++ ds), None), r1)
    /\ Plugins_iter_installed E r1 = ((dedup_by_name (o ++ es ++ ds), None), r1)
    /\ NoDup (map name (dedup_by_name (o ++ es ++ ds)))
    /\ (forall n, In n (map name (o ++ es ++ ds))
                  <-> In n (map name (dedup_by_name (o ++ es ++ ds))))
    /\ (forall p q, In p (dedup_by_name (o ++ es ++ ds)) ->
                    In q (o ++ es ++ ds) -> name q = name p ->
                    rank (class_of p) <= rank (class_of q))
    /\ (forall p, In p (dedup_by_name (o ++ es ++ ds)) ->
                  find (fun q => String.eqb (name q) (name p)) (o ++ es ++ ds)
                  = Some p).
Proof.
  intros Hload He Hd.
  apply load_official_INSTALLED in Hload as (HL & Hf & Hco). simpl in HL.
  assert (Hce : Forall (fun p => class_of p = EntrypointPlugin) es).
  { pose proof (EntrypointPlugin_iter_load_class (entry_points E)) as H.
    unfold iter_load in He. now rewrite He in H. }
  assert (Hcd : Forall (fun p => class_of p = DictPlugin) ds).
  { pose proof (DictPlugin_iter_load_class (plugin_files E)) as H.
    unfold iter_load in Hd. now rewrite Hd in H. }
  destruct (@Plugins_iter_installed_ok E r0) as (r1 & Hrun & Hall & HL1).
  { right. now rewrite He. }
  { right. now rewrite Hd. }
  unfold pending in Hrun, HL1. rewrite !Hf, He, Hd, HL in Hrun, HL1.
  simpl in Hrun, HL1.
  exists r1. split; [exact Hrun |].
  split; [rewrite Plugins_iter_installed_replay by exact Hall; now rewrite HL1 |].
  split; [apply dedup_by_name_NoDup |].
  split; [intros n; symmetry; apply dedup_by_name_names |].
  split.
  - intros p q Hp Hq Hname.
    eapply find_first_rank with (f := fun q => String.eqb (name q) (name p))
                                (l := o ++ es ++ ds).
    + now apply by_class_sorted.
    + now apply dedup_by_name_first.
    + exact Hq.
    + rewrite Hname. apply String.eqb_refl.
  - intros p. apply dedup_by_name_first.
Qed.

Lemma iter_installed_dedup_priority_witness :
  let r0 := snd (load_official xyz_env ["x"] initial_registry) in
  let ys := fst (fst (Plugins_iter_installed xyz_env r0)) in
  map name ys = ["x"; "y"; "z"]
  /\ map class_of ys = [OfficialPlugin; EntrypointPlugin; DictPlugin].
Proof.
  destruct (@iter_installed_dedup_priority xyz_env ["x"]
              [x_official]
              (fst (iter_load xyz_env EntrypointPlugin))
              (fst (iter_load xyz_env DictPlugin))
              (snd (load_official xyz_env ["x"] initial_registry)))
    as (r1 & H & _); try reflexivity.
  cbv zeta. rewrite H. split; reflexivity.
Defined.

(** ** [enable] *)

(** C7. When the registry has no plugin named [n], [enable] raises the
    error [plugin 'n' is not installed.] and the configuration mapping is
    the one it was given. *)
Theorem enable_not_installed (E : env) (cfg : dict value) (n : string)
  (r r1 : registry) (ys : list plugin) :
  Plugins_iter_installed E r = ((ys, None), r1) ->
  ~ In n (map name ys) ->
  enable E cfg n r
  = (Raise (TutorError ("plugin '" ++ n ++ "' is not installed.")%string),
     r1, cfg).
Proof.
  intros Hrun Hn. unfold enable.
  now rewrite (@is_installed_absent E n r r1 ys Hrun Hn).
Qed.

Lemma enable_not_installed_witness :
  let cfg := [("PLUGINS", VList ["b"; "a"]); ("FORUM_SECRET", VStr "abc")] in
  fst (enable forum_env cfg "unknown" initial_registry)
  = (Raise (TutorError "plugin 'unknown' is not installed."),
     snd (Plugins_iter_installed forum_env initial_registry))
  /\ snd (enable forum_env cfg "unknown" initial_registry) = cfg.
Proof.
  cbv zeta.
  rewrite (@enable_not_installed forum_env _ "unknown" initial_registry
             (snd (Plugins_iter_installed forum_env initial_registry))
             [forum_plugin]).
  - split; reflexivity.
  - reflexivity.
  - simpl. intros [H | []]. discriminate H.
Defined.

(** C10. [enable] on an installed plugin that is already enabled returns at
    once: the configuration mapping is the one it was given, so a list that
    was not sorted is not sorted afterwards either. *)
Theorem enable_already_enabled (E : env) (cfg : dict value) (n : string)
  (r : registry) :
  fst (is_installed E n r) = Ok true ->
  is_enabled cfg n = true ->
  enable E cfg n r = (Ok tt, snd (is_installed E n r), cfg)
  /\ (forall l, dict_get cfg CONFIG_KEY = Some (VList l) ->
                dict_get (snd (enable E cfg n r)) CONFIG_KEY = Some (VList l)).
Proof.
  intros Hinst Hen.
  assert (H : enable E cfg n r = (Ok tt, snd (is_installed E n r), cfg)).
  { unfold enable. destruct (is_installed E n r) as [res r1].
    simpl in Hinst. subst res. now rewrite Hen. }
  split; [exact H |].
  intros l Hl. now rewrite H.
Qed.

Lemma not_sorted_b_a : ~ StronglySorted str_le ["b"; "a"].
Proof.
  intros H. inversion H as [|? ? _ Hall]; subst.
  inversion Hall as [|? ? Hle _]; subst. discriminate Hle.
Qed.

Lemma enable_already_enabled_witness :
  let cfg := [("PLUGINS", VList ["b"; "a"])] in
  dict_get (snd (enable ab_env cfg "a" initial_registry)) CONFIG_KEY
  = Some (VList ["b"; "a"])
  /\ ~ StronglySorted str_le ["b"; "a"].
Proof.
  cbv zeta. split; [| exact not_sorted_b_a].
  destruct (@enable_already_enabled ab_env [("PLUGINS", VList ["b"; "a"])]
              "a" initial_registry) as [_ H]; [reflexivity | reflexivity |].
  apply H. reflexivity.
Defined.

(** C8, as stated, fails: [a] is installed and already in the list
    [["b"; "a"]]; [enable] succeeds and the list is still [["b"; "a"]]. *)
Lemma enable_enabled_keeps_unsorted :
  let cfg := [("PLUGINS", VList ["b"; "a"])] in
  fst (is_installed ab_env "a" initial_registry) = Ok true
  /\ fst (fst (enable ab_env cfg "a" initial_registry)) = Ok tt
  /\ dict_get (snd (enable ab_env cfg "a" initial_registry)) CONFIG_KEY
     = Some (VList ["b"; "a"])
  /\ ~ StronglySorted str_le ["b"; "a"].
Proof.
  cbv zeta. repeat split; try reflexivity. exact not_sorted_b_a.
Qed.

Lemma dict_set_get_same (V : Type) (d : dict V) (k : string) (v : V) :
  dict_get (dict_set d k v) k = Some v.
Proof. now rewrite dict_get_set, String.eqb_refl. Qed.

(** C8, amended. [enable] on an installed plugin that is not yet enabled
    succeeds whenever the entry [CONFIG_KEY] is absent or a list, and after
    every such successful call the entry exists and is sorted: it is the
    previous list (empty when the entry was absent) with [n] added,
    sorted. *)
Theorem enable_new_sorted (E : env) (cfg : dict value) (n : string)
  (r : registry) :
  fst (is_installed E n r) = Ok true ->
  is_enabled cfg n = false ->
  (forall l, enabled_list cfg = Some l ->
             fst (fst (enable E cfg n r)) = Ok tt)
  /\ (fst (fst (enable E cfg n r)) = Ok tt ->
      exists l,
        enabled_list cfg = Some l
        /\ dict_get (snd (enable E cfg n r)) CONFIG_KEY
           = Some (VList (sorted (l ++ [n])))
        /\ StronglySorted str_le (sorted (l ++ [n]))
        /\ Permutation (l ++ [n]) (sorted (l ++ [n]))).
Proof.
  intros Hinst Hen. unfold enable, enabled_list.
  destruct (is_installed E n r) as [res r1]. simpl in Hinst. subst res.
  rewrite Hen. unfold dict_contains.
  destruct (dict_get cfg CONFIG_KEY) as [[s | l0] |] eqn:Hget.
  - (* the entry is a string *)
    assert (Hc : list_in CONFIG_KEY (dict_keys cfg) = true).
    { destruct (list_in CONFIG_KEY (dict_keys cfg)) eqn:Hc; [reflexivity |].
      apply dict_contains_get in Hc. congruence. }
    rewrite Hc, Hget. simpl. split; [discriminate | discriminate].
  - (* the entry is a list *)
    assert (Hc : list_in CONFIG_KEY (dict_keys cfg) = true).
    { destruct (list_in CONFIG_KEY (dict_keys cfg)) eqn:Hc; [reflexivity |].
      apply dict_contains_get in Hc. congruence. }
    rewrite Hc, Hget. simpl. split; [reflexivity |].
    intros _. exists l0. rewrite dict_set_get_same.
    repeat split; [apply sorted_is_sorted | apply sorted_perm].
  - (* the entry is absent *)
    assert (Hc : list_in CONFIG_KEY (dict_keys cfg) = false).
    { now apply dict_contains_get. }
    rewrite Hc, dict_set_get_same. simpl. split; [reflexivity |].
    intros _. exists []. rewrite dict_set_get_same.
    repeat split; [apply (sorted_is_sorted [n]) | apply (sorted_perm [n])].
Qed.

Lemma enable_new_sorted_witness :
  let cfg := [("PLUGINS", VList ["c"; "b"])] in
  dict_get (snd (enable ab_env cfg "a" initial_registry)) CONFIG_KEY
  = Some (VList ["a"; "b"; "c"]).
Proof.
  cbv zeta.
  destruct (@enable_new_sorted ab_env [("PLUGINS", VList ["c"; "b"])] "a"
              initial_registry) as [_ H]; [reflexivity | reflexivity |].
  destruct (H eq_refl) as (l & Hl & Hget & _).
  injection Hl as <-. exact Hget.
Defined.

(** ** [disable] *)


Lemma fold_pop_get (ks : list string) (cfg : dict value) (k : string) :
  dict_get (fold_left (@dict_pop value) ks cfg) k
  = if list_in k ks then None else dict_get cfg k.
Proof.
  revert cfg. induction ks as [|k0 ks IH]; intros cfg; simpl; [reflexivity |].
  rewrite IH. destruct (list_in k ks) eqn:Hin; [now rewrite orb_true_r |].
  rewrite orb_false_r. destruct (String.eqb_spec k k0) as [-> | Hne].
  - apply dict_contains_get, dict_contains_pop_same.
  - apply dict_get_pop_other. congruence.
Qed.

Lemma disable_plugin_items (items : list (string * value))
  (cfg : dict value) (log : list message) :
  fst (fold_left
         (fun '(cfg, log) '(key, v) =>
            (dict_pop cfg key,
             echo_info log "    Removed config entry {}={}" [VStr key; v]))
         items (cfg, log))
  = fold_left (@dict_pop value) (map fst items) cfg.
Proof.
  revert cfg log. induction items as [|[k v] items IH]; intros cfg log; simpl.
  - reflexivity.
  - apply IH.
Qed.

Lemma disable_loop_config (n : string) (ps : list plugin)
  (st : dict value * list message) :
  fst (fold_left (disable_plugin n) ps st)
  = fold_left (@dict_pop value) (removed_keys n ps) (fst st).
Proof.
  revert st. induction ps as [|p ps IH]; intros st; simpl; [reflexivity |].
  rewrite IH, fold_left_app. f_equal. unfold disable_plugin.
  destruct (String.eqb n (name p)); [| reflexivity].
  destruct st as [cfg log]. apply disable_plugin_items.
Qed.

Lemma removed_keys_none (n : string) (ps : list plugin) :
  ~ In n (map name ps) -> removed_keys n ps = [].
Proof.
  induction ps as [|p ps IH]; simpl; intros Hn; [reflexivity |].
  destruct (String.eqb_spec n (name p)) as [-> | _]; [tauto |].
  apply IH. tauto.
Qed.

Lemma removed_keys_one (n : string) (ps : list plugin) (p : plugin) :
  NoDup (map name ps) -> In p ps -> name p = n ->
  removed_keys n ps = dict_keys (config_set p).
Proof.
  induction ps as [|q ps IH]; simpl; intros Hnd Hin Hname; [contradiction |].
  inversion Hnd as [|? ? Hnin Hnd']; subst.
  destruct Hin as [-> | Hin].
  - rewrite String.eqb_refl, removed_keys_none by assumption.
    apply app_nil_r.
  - destruct (String.eqb_spec (name p) (name q)) as [Heq | _].
    + exfalso. apply Hnin. rewrite <- Heq. now apply in_map.
    + now apply IH.
Qed.

Lemma disable_loop_log_none (n : string) (ps : list plugin)
  (st : dict value * list message) :
  ~ In n (map name ps) -> fold_left (disable_plugin n) ps st = st.
Proof.
  revert st. induction ps as [|p ps IH]; intros st Hn; simpl; [reflexivity |].
  simpl in Hn. unfold disable_plugin at 2.
  destruct (String.eqb_spec n (name p)) as [-> | _]; [tauto |].
  apply IH. tauto.
Qed.

Lemma record_plugin_config (ps : list plugin) (self : Plugins) :
  self_config (fold_left record_plugin ps self) = self_config self.
Proof.
  revert self. induction ps as [|p ps IH]; intros self; simpl; [reflexivity |].
  now rewrite IH.
Qed.

Section DisableFacts.
Variable E : env.

(** The constructor succeeds exactly when the visit of the registry does,
    and leaves every class loaded. *)
Lemma Plugins_init_ok (cfg : dict value) (r r1 : registry) (ys : list plugin) :
  Plugins_iter_installed E r = ((ys, None), r1) ->
  Plugins_init E cfg r
  = (Ok (fold_left record_plugin
           (filter (fun p => is_enabled cfg (name p)) ys)
           {| self_config := cfg; self_patches := []; self_hooks := [];
              self_template_roots := [] |}), r1).
Proof.
  intros Hrun. unfold Plugins_init, Plugins_iter_enabled. now rewrite Hrun.
Qed.

(** [disable] after a visit of the registry without an exception. *)
Lemma disable_unfold (cfg : dict value) (n : string) (r r1 : registry)
  (ys : list plugin) :
  Plugins_iter_installed E r = ((ys, None), r1) ->
  disable E cfg n r
  = let en := filter (fun p => is_enabled cfg (name p)) ys in
    let st := fold_left (disable_plugin n) en
                (cfg, echo_info [] "Disabling plugin {}..." [VStr n]) in
    match dict_get (fst st) CONFIG_KEY with
    | None => (Raise (KeyError CONFIG_KEY), r1, fst st, snd st)
    | Some (VStr s) =>
        if str_in n s then (Raise (AttributeError "remove"), r1, fst st, snd st)
        else (Ok tt, r1, fst st, echo_info (snd st) "    Plugin disabled" [])
    | Some (VList l) =>
        (Ok tt, r1,
         dict_set (fst st) CONFIG_KEY (VList (remove_while (length l) n l)),
         echo_info (snd st) "    Plugin disabled" [])
    end.
Proof.
  intros Hrun. unfold disable.
  rewrite (@Plugins_init_ok cfg r r1 ys Hrun).
  pose proof Hrun as Hinv. apply Plugins_iter_installed_inv in Hinv as (Hys & Hall & _).
  unfold Plugins_iter_enabled.
  rewrite (Plugins_iter_installed_replay E Hall), <- Hys.
  rewrite record_plugin_config. cbn [self_config].
  cbv zeta.
  destruct (fold_left (disable_plugin n) _ _) as [cfg1 log1]. reflexivity.
Qed.
End DisableFacts.

Lemma dict_set_same (V : Type) (d : dict V) (k : string) (v : V) :
  dict_get d k = Some v -> dict_set d k v = d.
Proof.
  induction d as [|[k0 v0] d IH]; simpl; [discriminate |].
  destruct (String.eqb_spec k0 k) as [-> | Hne].
  - intros H. now inversion H.
  - intros H. f_equal. now apply IH.
Qed.

Lemma list_in_filter_neq (n : string) (l : list string) :
  list_in n (filter (fun y => negb (String.eqb n y)) l) = false.
Proof.
  apply list_in_not_In. intros H. apply filter_In in H as [_ H].
  now rewrite String.eqb_refl in H.
Qed.

Lemma NoDup_map_filter (A B : Type) (f : A -> B) (g : A -> bool) (l : list A) :
  NoDup (map f l) -> NoDup (map f (filter g l)).
Proof.
  induction l as [|a l IH]; simpl; intros H; [constructor |].
  inversion H as [|? ? Hnin Hnd]; subst.
  destruct (g a); simpl; [| now apply IH].
  constructor; [| now apply IH].
  rewrite in_map_iff. intros (b & Heq & Hb). apply Hnin.
  apply filter_In in Hb as [Hb _]. rewrite <- Heq. now apply in_map.
Qed.

(** The enabled plugins of a visit have pairwise distinct names. *)
Lemma enabled_NoDup (E : env) (cfg : dict value) (r r1 : registry)
  (ys : list plugin) :
  Plugins_iter_installed E r = ((ys, None), r1) ->
  NoDup (map name (filter (fun p => is_enabled cfg (name p)) ys)).
Proof.
  intros Hrun. apply Plugins_iter_installed_inv in Hrun as (Hys & _).
  apply NoDup_map_filter. rewrite Hys. apply dedup_by_name_NoDup.
Qed.

(** C5. [p] is the record of the registry for the name [n], and [n] is in
    the list of enabled plugins. After [disable], no key of [config.set] of
    [p] is in the configuration mapping (a key that was not there is no
    error) and [n] is not enabled. Unless [config.set] names the entry
    [CONFIG_KEY] itself, [disable] returns normally, the entry is the
    former list without any occurrence of [n], and the other keys are
    untouched. *)
Theorem disable_removes_set_keys (E : env) (cfg : dict value) (n : string)
  (r r1 : registry) (ys : list plugin) (p : plugin) (enabled : list string) :
  Plugins_iter_installed E r = ((ys, None), r1) ->
  In p ys -> name p = n ->
  dict_get cfg CONFIG_KEY = Some (VList enabled) -> In n enabled ->
  let res := fst (fst (fst (disable E cfg n r))) in
  let cfg' := snd (fst (disable E cfg n r)) in
  (forall k, In k (dict_keys (config_set p)) -> dict_contains cfg' k = false)
  /\ is_enabled cfg' n = false
  /\ (~ In CONFIG_KEY (dict_keys (config_set p)) ->
      res = Ok tt
      /\ dict_get cfg' CONFIG_KEY
         = Some (VList (filter (fun y => negb (String.eqb n y)) enabled))
      /\ (forall k, k <> CONFIG_KEY -> ~ In k (dict_keys (config_set p)) ->
                    dict_get cfg' k = dict_get cfg k)).
Proof.
  intros Hrun Hp Hname Hget Hin. cbv zeta.
  rewrite (@disable_unfold E cfg n r r1 ys Hrun). cbv zeta.
  set (en := filter (fun q => is_enabled cfg (name q)) ys).
  assert (Hen : In p en).
  { apply filter_In. split; [assumption |]. unfold is_enabled, dict_get_default.
    rewrite Hget, Hname. now apply list_in_In. }
  assert (Hnd : NoDup (map name en)) by exact (@enabled_NoDup E cfg r r1 ys Hrun).
  rewrite disable_loop_config, (@removed_keys_one n en p Hnd Hen Hname).
  cbn [fst]. set (ks := dict_keys (config_set p)).
  set (cfg1 := fold_left (@dict_pop value) ks cfg).
  assert (Hget1 : forall k, dict_get cfg1 k
                            = if list_in k ks then None else dict_get cfg k)
    by (intros k; apply fold_pop_get).
  rewrite (Hget1 CONFIG_KEY).
  destruct (list_in CONFIG_KEY ks) eqn:Hkey.
  - (* [config.set] names the entry itself *)
    cbn [fst snd]. split; [| split].
    + intros k Hk. apply dict_contains_get. rewrite Hget1.
      now rewrite (proj2 (list_in_In k ks) Hk).
    + unfold is_enabled, dict_get_default. rewrite Hget1, Hkey. reflexivity.
    + intros Hn. exfalso. apply Hn. now apply list_in_In.
  - rewrite Hget. cbn [fst snd].
    rewrite remove_while_filter by apply le_n.
    apply list_in_not_In in Hkey.
    split; [| split].
    + intros k Hk. apply dict_contains_get. rewrite dict_get_set.
      destruct (String.eqb_spec CONFIG_KEY k) as [<- | _]; [contradiction |].
      rewrite Hget1. now rewrite (proj2 (list_in_In k ks) Hk).
    + unfold is_enabled, dict_get_default.
      rewrite dict_set_get_same. apply list_in_filter_neq.
    + intros _. split; [reflexivity |].
      split; [apply dict_set_get_same |].
      intros k Hk Hnk. rewrite dict_get_set.
      destruct (String.eqb_spec CONFIG_KEY k) as [<- | _]; [contradiction |].
      rewrite Hget1. now rewrite (proj2 (list_in_not_In k ks) Hnk).
Qed.

(** The scenario of the specification: [forum] is enabled and its
    [config.set] has [FORUM_SECRET]. *)
Lemma disable_removes_set_keys_witness :
  let cfg := [("PLUGINS", VList ["forum"]); ("FORUM_SECRET", VStr "abc")] in
  let cfg' := snd (fst (disable forum_env cfg "forum" initial_registry)) in
  dict_contains cfg' "FORUM_SECRET" = false
  /\ is_enabled cfg' "forum" = false
  /\ fst (fst (fst (disable forum_env cfg "forum" initial_registry))) = Ok tt
  /\ dict_get cfg' CONFIG_KEY = Some (VList []).
Proof.
  cbv zeta.
  destruct (@disable_removes_set_keys forum_env
              [("PLUGINS", VList ["forum"]); ("FORUM_SECRET", VStr "abc")]
              "forum" initial_registry
              (snd (Plugins_iter_installed forum_env initial_registry))
              [forum_plugin] forum_plugin ["forum"])
    as (Hkeys & Hen & Hok); try reflexivity; try (left; reflexivity).
  split; [apply Hkeys; left; reflexivity |].
  split; [exact Hen |].
  destruct Hok as (Hres & Hlist & _).
  - simpl. intros [H | []]. discriminate H.
  - split; [exact Hres | exact Hlist].
Defined.

(** C6. Without the entry [CONFIG_KEY], [disable] raises [KeyError]: the
    loop that removes the name reads [config[CONFIG_KEY]]. Here on the empty
    mapping and on a mapping with another key, with the sources of the
    scenario. *)
Theorem disable_absent_entry_raises :
  is_enabled [] "forum" = false
  /\ disable forum_env [] "forum" initial_registry
     = (Raise (KeyError "PLUGINS"),
        snd (Plugins_iter_installed forum_env initial_registry), [],
        [{| template := "Disabling plugin {}..."; arguments := [VStr "forum"] |}])
  /\ fst (fst (fst (disable forum_env [("FORUM_SECRET", VStr "abc")] "other"
                            initial_registry)))
     = Raise (KeyError "PLUGINS").
Proof. repeat split. Qed.

(** Whatever the sources, [disable] raises [KeyError] when the entry is
    absent and the registry can be read. *)
Lemma disable_raises_without_entry (E : env) (cfg : dict value) (n : string)
  (r r1 : registry) (ys : list plugin) :
  Plugins_iter_installed E r = ((ys, None), r1) ->
  dict_get cfg CONFIG_KEY = None ->
  disable E cfg n r
  = (Raise (KeyError CONFIG_KEY), r1, cfg,
     echo_info [] "Disabling plugin {}..." [VStr n]).
Proof.
  intros Hrun Hget. rewrite (@disable_unfold E cfg n r r1 ys Hrun). cbv zeta.
  replace (filter (fun p => is_enabled cfg (name p)) ys) with (@nil plugin).
  - simpl. now rewrite Hget.
  - symmetry. unfold is_enabled, dict_get_default. rewrite Hget. simpl.
    clear Hrun. induction ys as [|y ys IH]; simpl; [reflexivity | exact IH].
Qed.

(** X13. With the entry present, disabling a plugin that is not enabled
    changes nothing and writes the first and the last message only. *)
Lemma disable_not_enabled (E : env) (cfg : dict value) (n : string)
  (r r1 : registry) (ys : list plugin) (enabled : list string) :
  Plugins_iter_installed E r = ((ys, None), r1) ->
  dict_get cfg CONFIG_KEY = Some (VList enabled) -> ~ In n enabled ->
  disable E cfg n r
  = (Ok tt, r1, cfg,
     [{| template := "Disabling plugin {}..."; arguments := [VStr n] |};
      {| template := "    Plugin disabled"; arguments := [] |}]).
Proof.
  intros Hrun Hget Hn. rewrite (@disable_unfold E cfg n r r1 ys Hrun). cbv zeta.
  rewrite disable_loop_log_none.
  - cbn [fst snd]. rewrite Hget.
    rewrite remove_while_filter by apply le_n.
    rewrite filter_all.
    + now rewrite (@dict_set_same value cfg CONFIG_KEY (VList enabled) Hget).
    + intros y Hy. destruct (String.eqb_spec n y) as [-> | _];
        [contradiction | reflexivity].
  - rewrite in_map_iff. intros (q & Hq & Hin). apply filter_In in Hin as [_ Hin].
    unfold is_enabled, dict_get_default in Hin. rewrite Hget, Hq in Hin.
    apply list_in_In in Hin. contradiction.
Qed.

(** ** The aggregator *)

Section Aggregate.
Variable V : Type.
Implicit Types (d : dict (dict V)) (inner : dict V).


Lemma record_entry_slot d (n : string) (kv : string * V) (slot : string) :
  dict_get_default (record_entry d n kv) slot []
  = if String.eqb (fst kv) slot
    then dict_set (dict_get_default d slot []) n (snd kv)
    else dict_get_default d slot [].
Proof.
  destruct kv as [k v]. unfold record_entry. cbn [fst snd].
  set (d1 := if dict_contains d k then d else dict_set d k []).
  assert (H1 : forall s, dict_get_default d1 s [] = dict_get_default d s []).
  { intros s. unfold d1. destruct (dict_contains d k) eqn:Hc; [reflexivity |].
    rewrite dict_get_default_set.
    destruct (String.eqb_spec k s) as [<- | _]; [| reflexivity].
    apply dict_contains_get in Hc. unfold dict_get_default. now rewrite Hc. }
  rewrite dict_get_default_set, H1.
  destruct (String.eqb_spec k slot) as [-> | _]; [| apply H1].
  reflexivity.
Qed.

Lemma record_items_slot (items : list (string * V)) d (n slot : string) :
  dict_get_default (fold_left (fun d' kv => record_entry d' n kv) items d) slot []
  = slot_fold slot n items (dict_get_default d slot []).
Proof.
  revert d. induction items as [|kv items IH]; intros d; simpl; [reflexivity |].
  now rewrite IH, record_entry_slot.
Qed.

Lemma slot_fold_absent (slot n : string) (items : list (string * V)) inner :
  ~ In slot (dict_keys items) -> slot_fold slot n items inner = inner.
Proof.
  revert inner. induction items as [|[k v] items IH]; intros inner Hn; simpl;
    [reflexivity |].
  simpl in Hn. destruct (String.eqb_spec k slot) as [-> | _]; [tauto |].
  apply IH. tauto.
Qed.

Lemma slot_fold_wf_items (slot n : string) (items : dict V) inner :
  dict_wf items ->
  slot_fold slot n items inner
  = match dict_get items slot with
    | Some v => dict_set inner n v
    | None => inner
    end.
Proof.
  unfold dict_wf. revert inner.
  induction items as [|[k v] items IH]; intros inner Hwf; simpl; [reflexivity |].
  inversion Hwf as [|? ? Hnin Hwf']; subst.
  destruct (String.eqb_spec k slot) as [-> | _].
  - now apply slot_fold_absent.
  - now apply IH.
Qed.

Lemma slot_fold_wf (slot n : string) (items : list (string * V)) inner :
  dict_wf inner -> dict_wf (slot_fold slot n items inner).
Proof.
  revert inner. induction items as [|[k v] items IH]; intros inner Hwf; simpl;
    [assumption |].
  apply IH. destruct (String.eqb k slot); [now apply dict_set_wf | assumption].
Qed.

Variable sel : plugin -> dict V.


Lemma record_all_wf (ps : list plugin) d (slot : string) :
  dict_wf (dict_get_default d slot []) ->
  dict_wf (dict_get_default (record_all sel ps d) slot []).
Proof.
  revert d. induction ps as [|p ps IH]; intros d Hwf; simpl; [assumption |].
  apply IH. rewrite record_items_slot. now apply slot_fold_wf.
Qed.

Lemma record_all_slot (ps : list plugin) d (slot : string) :
  (forall p, In p ps -> dict_wf (sel p)) ->
  NoDup (map name ps) ->
  (forall p, In p ps -> ~ In (name p) (dict_keys (dict_get_default d slot []))) ->
  dict_get_default (record_all sel ps d) slot []
  = dict_get_default d slot [] ++ contributions sel slot ps.
Proof.
  revert d. induction ps as [|p ps IH]; intros d Hwf Hnd Hfresh; simpl.
  - now rewrite app_nil_r.
  - inversion Hnd as [|? ? Hnin Hnd']; subst.
    unfold dict_items. rewrite IH; try assumption.
    + rewrite record_items_slot.
      rewrite slot_fold_wf_items by (apply Hwf; now left).
      destruct (dict_get (sel p) slot) as [v|]; [| reflexivity].
      rewrite dict_set_absent by (apply Hfresh; now left).
      now rewrite <- app_assoc.
    + intros q Hq. apply Hwf. now right.
    + intros q Hq. rewrite record_items_slot.
      rewrite slot_fold_wf_items by (apply Hwf; now left).
      destruct (dict_get (sel p) slot) as [v|].
      * rewrite dict_keys_set.
        assert (Hq' : ~ In (name q) (dict_keys (dict_get_default d slot [])))
          by (apply Hfresh; now right).
        destruct (dict_contains _ _); [assumption |].
        rewrite in_app_iff. intros [H | [H | []]]; [contradiction |].
        apply Hnin. rewrite H. now apply in_map.
      * apply Hfresh. now right.
Qed.

Lemma contributions_keys_NoDup (slot : string) (ps : list plugin) :
  NoDup (map name ps) -> NoDup (dict_keys (contributions sel slot ps)).
Proof.
  induction ps as [|p ps IH]; simpl; intros Hnd; [constructor |].
  inversion Hnd as [|? ? Hnin Hnd']; subst.
  destruct (dict_get (sel p) slot) as [v|]; simpl; [| now apply IH].
  constructor; [| now apply IH].
  intros Hin. apply Hnin. clear -Hin.
  induction ps as [|q ps IHq]; simpl in *; [contradiction |].
  destruct (dict_get (sel q) slot); simpl in *; [| right; now apply IHq].
  destruct Hin as [H | H]; [now left | right; now apply IHq].
Qed.
End Aggregate.

Lemma record_plugin_patches (ps : list plugin) (self : Plugins) :
  self_patches (fold_left record_plugin ps self)
  = record_all patches ps (self_patches self).
Proof.
  revert self. induction ps as [|p ps IH]; intros self; simpl; [reflexivity |].
  now rewrite IH.
Qed.

Lemma record_plugin_hooks (ps : list plugin) (self : Plugins) :
  self_hooks (fold_left record_plugin ps self)
  = record_all hooks ps (self_hooks self).
Proof.
  revert self. induction ps as [|p ps IH]; intros self; simpl; [reflexivity |].
  now rewrite IH.
Qed.

(** Looking up keys that are all present keeps them, in their order. *)
Lemma lookup_fst (V : Type) (d : dict V) (ks : list string) :
  (forall k, In k ks -> In k (dict_keys d)) ->
  map fst (flat_map (fun k => match dict_get d k with
                              | Some v => [(k, v)]
                              | None => []
                              end) ks) = ks.
Proof.
  induction ks as [|k ks IH]; simpl; intros H; [reflexivity |].
  destruct (dict_get d k) as [v|] eqn:Hget.
  - simpl. f_equal. apply IH. intros k' Hk'. apply H. now right.
  - exfalso. apply dict_get_None in Hget. apply Hget, H. now left.
Qed.

(** Two arrangements of the same pairs with strictly increasing names are
    the same list. *)
Lemma strict_sorted_pairs_unique (V : Type) (l1 l2 : list (string * V)) :
  StronglySorted str_lt (map fst l1) -> StronglySorted str_lt (map fst l2) ->
  Permutation l1 l2 -> l1 = l2.
Proof.
  revert l2. induction l1 as [|[k1 v1] l1 IH]; intros l2 H1 H2 Hp.
  - apply Permutation_nil in Hp. now subst.
  - destruct l2 as [|[k2 v2] l2];
      [symmetry in Hp; apply Permutation_nil in Hp; discriminate |].
    simpl in H1, H2.
    inversion H1 as [|? ? Hs1 Hall1]; subst.
    inversion H2 as [|? ? Hs2 Hall2]; subst.
    rewrite Forall_forall in Hall1, Hall2.
    assert (Hhead : (k1, v1) = (k2, v2)).
    { assert (Hin1 : In (k1, v1) ((k2, v2) :: l2))
        by (eapply Permutation_in; [exact Hp | now left]).
      assert (Hin2 : In (k2, v2) ((k1, v1) :: l1))
        by (eapply Permutation_in; [symmetry; exact Hp | now left]).
      destruct Hin1 as [Heq | Hin1]; [now symmetry |].
      destruct Hin2 as [Heq | Hin2]; [assumption |].
      exfalso. apply (@str_lt_irrefl k1).
      apply (@str_lt_trans k1 k2 k1).
      - apply Hall1. change k2 with (fst (k2, v2)). now apply in_map.
      - apply Hall2. change k1 with (fst (k1, v1)). now apply in_map. }
    inversion Hhead; subst k2 v2. f_equal.
    apply IH; [assumption | assumption |].
    eapply Permutation_cons_inv. exact Hp.
Qed.

(** [Plugins.iter_patches] on any object whose entry for the slot is a
    well-formed dictionary. *)
Lemma patches_of_slot_sorted (self : Plugins) (slot : string) :
  dict_wf (dict_get_default (self_patches self) slot []) ->
  StronglySorted str_lt (map fst (Plugins_iter_patches self slot))
  /\ Permutation (Plugins_iter_patches self slot)
                 (dict_items (dict_get_default (self_patches self) slot [])).
Proof.
  intros Hwf. unfold Plugins_iter_patches.
  set (pp := dict_get_default (self_patches self) slot []) in *. split.
  - rewrite lookup_fst.
    + now apply sorted_strict.
    + intros k Hk. eapply Permutation_in; [| exact Hk].
      symmetry. apply sorted_perm.
  - unfold dict_items. rewrite <- (lookup_keys Hwf) at 2.
    apply Permutation_flat_map. symmetry. apply sorted_perm.
Qed.


(** The entry of a slot after the constructor: the contributions of the
    enabled plugins, in the order of the registry. *)
Lemma built_patches (cfg : dict value) (ps : list plugin) (slot : string) :
  (forall p, In p ps -> dict_wf (patches p)) -> NoDup (map name ps) ->
  dict_get_default
    (self_patches (fold_left record_plugin ps (empty_Plugins cfg))) slot []
  = contributions patches slot ps.
Proof.
  intros Hwf Hnd. rewrite record_plugin_patches.
  rewrite record_all_slot; [reflexivity | assumption | assumption |].
  intros p _. simpl. tauto.
Qed.

Lemma built_hooks (cfg : dict value) (ps : list plugin) (phase : string) :
  (forall p, In p ps -> dict_wf (hooks p)) -> NoDup (map name ps) ->
  dict_get_default
    (self_hooks (fold_left record_plugin ps (empty_Plugins cfg))) phase []
  = contributions hooks phase ps.
Proof.
  intros Hwf Hnd. rewrite record_plugin_hooks.
  rewrite record_all_slot; [reflexivity | assumption | assumption |].
  intros p _. simpl. tauto.
Qed.

(** C4. The registry can be read and yields [ys]. The constructor then
    succeeds, and for every slot [Plugins.iter_patches] yields the pairs
    recorded for the slot, which are the contributions of the enabled
    plugins, with strictly increasing plugin names. Another registry,
    configuration or order of discovery with the same enabled plugins
    gives the same list. *)
Theorem iter_patches_sorted (E : env) (cfg : dict value) (r r1 : registry)
  (ys : list plugin) (slot : string) :
  Plugins_iter_installed E r = ((ys, None), r1) ->
  (forall p, In p ys -> dict_wf (patches p)) ->
  exists self,
    Plugins_init E cfg r = (Ok self, r1)
    /\ StronglySorted str_lt (map fst (Plugins_iter_patches self slot))
    /\ Permutation (Plugins_iter_patches self slot)
         (dict_items (dict_get_default (self_patches self) slot []))
    /\ Permutation (Plugins_iter_patches self slot)
         (contributions patches slot
            (filter (fun p => is_enabled cfg (name p)) ys))
    /\ (forall E' cfg' r' r1' ys' self',
          Plugins_iter_installed E' r' = ((ys', None), r1') ->
          (forall p, In p ys' -> dict_wf (patches p)) ->
          Permutation (filter (fun p => is_enabled cfg (name p)) ys)
                      (filter (fun p => is_enabled cfg' (name p)) ys') ->
          Plugins_init E' cfg' r' = (Ok self', r1') ->
          Plugins_iter_patches self' slot = Plugins_iter_patches self slot).
Proof.
  assert (Hmain : forall E cfg r r1 ys,
    Plugins_iter_installed E r = ((ys, None), r1) ->
    (forall p, In p ys -> dict_wf (patches p)) ->
    exists self,
      Plugins_init E cfg r = (Ok self, r1)
      /\ StronglySorted str_lt (map fst (Plugins_iter_patches self slot))
      /\ Permutation (Plugins_iter_patches self slot)
           (dict_items (dict_get_default (self_patches self) slot []))
      /\ Permutation (Plugins_iter_patches self slot)
           (contributions patches slot
              (filter (fun p => is_enabled cfg (name p)) ys))).
  { clear. intros E cfg r r1 ys Hrun Hwf.
    eexists. split; [apply (@Plugins_init_ok E cfg r r1 ys Hrun) |].
    fold (empty_Plugins cfg).
    set (en := filter (fun p => is_enabled cfg (name p)) ys).
    assert (Hb : dict_get_default
                   (self_patches (fold_left record_plugin en (empty_Plugins cfg)))
                   slot [] = contributions patches slot en).
    { apply built_patches.
      - intros p Hp. apply Hwf. apply filter_In in Hp. tauto.
      - exact (@enabled_NoDup E cfg r r1 ys Hrun). }
    destruct (@patches_of_slot_sorted
                (fold_left record_plugin en (empty_Plugins cfg)) slot)
      as [Hs Hp].
    { rewrite Hb. apply contributions_keys_NoDup.
      exact (@enabled_NoDup E cfg r r1 ys Hrun). }
    split; [exact Hs |]. split; [exact Hp |].
    unfold dict_items in Hp. now rewrite Hb in Hp. }
  intros Hrun Hwf.
  destruct (Hmain E cfg r r1 ys Hrun Hwf) as (self & Hinit & Hs & Hrec & Hc).
  exists self. repeat (split; [assumption |]).
  intros E' cfg' r' r1' ys' self' Hrun' Hwf' Hperm Hinit'.
  destruct (Hmain E' cfg' r' r1' ys' Hrun' Hwf')
    as (self2 & Hinit2 & Hs' & _ & Hc').
  rewrite Hinit' in Hinit2. inversion Hinit2; subst self2.
  apply strict_sorted_pairs_unique; [assumption | assumption |].
  rewrite Hc', Hc. symmetry. unfold contributions.
  now apply Permutation_flat_map.
Qed.

Lemma iter_patches_sorted_witness :
  fst (fst (iter_patches ab_env [("PLUGINS", VList ["b"; "a"])] "body"
              initial_registry))
  = [("a", "from a"); ("b", "from b")].
Proof.
  destruct (@iter_patches_sorted ab_env [("PLUGINS", VList ["b"; "a"])]
              initial_registry
              (snd (Plugins_iter_installed ab_env initial_registry))
              (fst (fst (Plugins_iter_installed ab_env initial_registry)))
              "body")
    as (self & Hinit & _).
  - reflexivity.
  - intros p [<- | [<- | []]]; repeat constructor; simpl; tauto.
  - unfold iter_patches. rewrite Hinit. cbn [fst].
    vm_compute in Hinit. inversion Hinit. reflexivity.
Defined.

(** C9. The registry can be read and yields [ys]. The constructor then
    succeeds, and for every phase [Plugins.iter_hooks] yields one pair for
    each enabled plugin that has the phase, in the order in which the
    registry yields the plugins: the names are not sorted. *)
Theorem iter_hooks_insertion_order (E : env) (cfg : dict value)
  (r r1 : registry) (ys : list plugin) (phase : string) :
  Plugins_iter_installed E r = ((ys, None), r1) ->
  (forall p, In p ys -> dict_wf (hooks p)) ->
  exists self,
    Plugins_init E cfg r = (Ok self, r1)
    /\ Plugins_iter_hooks self phase
       = contributions hooks phase
           (filter (fun p => is_enabled cfg (name p)) ys).
Proof.
  intros Hrun Hwf.
  eexists. split; [apply (@Plugins_init_ok E cfg r r1 ys Hrun) |].
  fold (empty_Plugins cfg). unfold Plugins_iter_hooks, dict_items.
  apply built_hooks.
  - intros p Hp. apply Hwf. apply filter_In in Hp. tauto.
  - exact (@enabled_NoDup E cfg r r1 ys Hrun).
Qed.

(** The files are found in the order [b], [a]: the hooks come in that
    order, the patches of the same object sorted. *)
Lemma iter_hooks_insertion_order_witness :
  let cfg := [("PLUGINS", VList ["a"; "b"])] in
  fst (fst (iter_hooks ab_env cfg "init" initial_registry))
  = [("b", ServiceList ["b"]); ("a", ServiceList ["a"])]
  /\ fst (fst (iter_patches ab_env cfg "body" initial_registry))
     = [("a", "from a"); ("b", "from b")].
Proof.
  cbv zeta. split; [| reflexivity].
  destruct (@iter_hooks_insertion_order ab_env [("PLUGINS", VList ["a"; "b"])]
              initial_registry
              (snd (Plugins_iter_installed ab_env initial_registry))
              (fst (fst (Plugins_iter_installed ab_env initial_registry)))
              "init")
    as (self & Hinit & Hhooks).
  - reflexivity.
  - intros p [<- | [<- | []]]; repeat constructor; simpl; tauto.
  - unfold iter_hooks. rewrite Hinit. cbn [fst]. rewrite Hhooks. reflexivity.
Defined.

(** * Further properties of the module *)

(** ** The registry in any state *)

Lemma yield_new_subset (seen : list string) (ps : list plugin) (p : plugin) :
  In p (fst (yield_new seen ps)) -> In p ps.
Proof.
  rewrite yield_new_filter. intros H. apply filter_In in H as [H _].
  now apply dedup_by_name_In.
Qed.

Lemma existsb_name (n : string) (ps : list plugin) :
  existsb (fun p => String.eqb n (name p)) ps = list_in n (map name ps).
Proof.
  induction ps as [|p ps IH]; simpl; [reflexivity |]. now rewrite IH.
Qed.

(** A name that is in [INSTALLED] is found in the visit of the first
    class. *)
Lemma is_installed_cached (E : env) (n : string) (r : registry) :
  In n (map name (BasePlugin_INSTALLED r)) ->
  is_installed E n r
  = (Ok true, visited OfficialPlugin (BasePlugin_INSTALLED r) r).
Proof.
  intros Hin. unfold is_installed, PLUGIN_CLASSES. cbn [is_installed_from].
  rewrite BasePlugin_iter_installed_ok by (right; reflexivity).
  rewrite pending_official, app_nil_r.
  destruct (yield_new [] (BasePlugin_INSTALLED r)) as [ys s] eqn:Hy.
  assert (Hys : ys = dedup_by_name (BasePlugin_INSTALLED r)).
  { rewrite <- yield_new_nil, Hy. reflexivity. }
  rewrite existsb_name, Hys.
  rewrite (proj2 (list_in_In _ _)); [reflexivity |].
  now apply dedup_by_name_names.
Qed.

(** When [is_installed] answers [True], a record of that name is in
    [INSTALLED] afterwards. *)
Lemma is_installed_from_found (E : env) (n : string) (cs : list PluginClass)
  (seen : list string) (r : registry) :
  fst (is_installed_from E n cs seen r) = Ok true ->
  In n (map name (BasePlugin_INSTALLED (snd (is_installed_from E n cs seen r)))).
Proof.
  revert seen r. induction cs as [|c cs IH]; intros seen r; simpl;
    [discriminate |].
  destruct (BasePlugin_iter_installed_cases E c r) as [(err & r0 & H) | H];
    rewrite H.
  - simpl. discriminate.
  - destruct (yield_new seen _) as [ys s] eqn:Hy.
    destruct (existsb (fun p => String.eqb n (name p)) ys) eqn:Hex.
    + intros _. cbn [snd]. rewrite visited_INSTALLED.
      apply existsb_exists in Hex as (p & Hp & Heq).
      apply String.eqb_eq in Heq. subst n. apply in_map.
      apply (@yield_new_subset seen). now rewrite Hy.
    + apply IH.
Qed.

Lemma is_installed_from_error (E : env) (n : string) (cs : list PluginClass)
  (seen : list string) (r r1 : registry) (ys : list plugin) (err : error) :
  iter_installed_from E cs seen r = ((ys, Some err), r1) ->
  ~ In n (map name ys) ->
  is_installed_from E n cs seen r = (Raise err, r1).
Proof.
  revert seen r ys. induction cs as [|c cs IH]; intros seen r ys; simpl;
    [discriminate |].
  destruct (BasePlugin_iter_installed E c r) as [[ps e] r0].
  destruct (yield_new seen ps) as [y s].
  destruct e as [err0|].
  - intros H Hn. inversion H; subst y err0 r0; clear H.
    rewrite existsb_name. now rewrite (proj2 (list_in_not_In _ _) Hn).
  - destruct (iter_installed_from E cs s r0) as [[zs e'] r2] eqn:Hrest.
    intros H Hn. inversion H; subst ys e' r2; clear H.
    rewrite map_app, in_app_iff in Hn. rewrite existsb_name.
    rewrite (proj2 (list_in_not_In n (map name y))) by tauto.
    eapply IH; [exact Hrest | tauto].
Qed.

(** X1. Once a visit of the registry has ended without an exception, every
    later visit yields the same sequence and changes no class attribute,
    whatever the sources hold by then. *)
Theorem iter_installed_memoized (E E' : env) (r r1 : registry)
  (ys : list plugin) :
  Plugins_iter_installed E r = ((ys, None), r1) ->
  Plugins_iter_installed E' r1 = ((ys, None), r1).
Proof.
  intros H. apply Plugins_iter_installed_inv in H as (Hys & Hall & _).
  rewrite Plugins_iter_installed_replay by exact Hall. now rewrite Hys.
Qed.

Lemma iter_installed_memoized_witness :
  Plugins_iter_installed broken_env
    (snd (Plugins_iter_installed forum_env initial_registry))
  = (([forum_plugin], None),
     snd (Plugins_iter_installed forum_env initial_registry)).
Proof.
  apply (@iter_installed_memoized forum_env broken_env initial_registry).
  reflexivity.
Defined.

(** X2. A first-party plugin loaded after the registry was visited goes to
    the end of [INSTALLED]: the next visit yields it last, and does not
    yield it at all when a record of its name was already there. *)
Theorem official_load_after_visit (E : env) (n : string) (p : plugin)
  (r r' : registry) :
  all_loaded r ->
  OfficialPlugin_load E n r = (Ok p, r') ->
  name p = n
  /\ Plugins_iter_installed E r'
     = ((dedup_by_name (BasePlugin_INSTALLED r ++ [p]), None), r')
  /\ (In n (map name (BasePlugin_INSTALLED r)) ->
      fst (Plugins_iter_installed E r') = fst (Plugins_iter_installed E r))
  /\ (~ In n (map name (BasePlugin_INSTALLED r)) ->
      fst (fst (Plugins_iter_installed E r'))
      = fst (fst (Plugins_iter_installed E r)) ++ [p]).
Proof.
  intros Hall Hload. unfold OfficialPlugin_load, OfficialPlugin_init in Hload.
  destruct (dict_get (modules E) _) as [m|]; [| discriminate].
  inversion Hload; subst p r'; clear Hload.
  set (p := BasePlugin_init n (mod_obj m) (OfModule (mod_version m))).
  assert (Hall' : all_loaded (INSTALLED_append OfficialPlugin p r)).
  { intros c. specialize (Hall c). destruct c; exact Hall. }
  assert (Hd : forall l, dedup_by_name (l ++ [p])
                         = dedup_by_name l
                           ++ (if list_in n (map name l) then [] else [p])).
  { induction l as [|q l IH]; simpl; [reflexivity |].
    rewrite IH, filter_app. f_equal. f_equal.
    destruct (String.eqb_spec n (name q)) as [Heq | Hne]; simpl.
    - destruct (list_in n (map name l)); [reflexivity |]. simpl.
      now rewrite Heq, String.eqb_refl.
    - destruct (list_in n (map name l)); [reflexivity |]. simpl.
      destruct (String.eqb_spec n (name q)); [contradiction | reflexivity]. }
  split; [reflexivity |].
  rewrite !Plugins_iter_installed_replay by assumption.
  cbn [INSTALLED_append BasePlugin_INSTALLED INSTALLED fst].
  split; [reflexivity |]. unfold INSTALLED. rewrite Hd. split; intros Hin.
  - rewrite (proj2 (list_in_In _ _) Hin). now rewrite app_nil_r.
  - now rewrite (proj2 (list_in_not_In _ _) Hin).
Qed.

(** The entry point [x] is cached before the first-party [x] is loaded:
    the visit keeps yielding the entry point. *)
Lemma official_load_after_visit_witness :
  let r := snd (Plugins_iter_installed xyz_env initial_registry) in
  let r' := snd (OfficialPlugin_load xyz_env "x" r) in
  map class_of (fst (fst (Plugins_iter_installed xyz_env r')))
  = [EntrypointPlugin; EntrypointPlugin; DictPlugin].
Proof.
  cbv zeta.
  destruct (@official_load_after_visit xyz_env "x" x_official
              (snd (Plugins_iter_installed xyz_env initial_registry))
              (snd (OfficialPlugin_load xyz_env "x"
                      (snd (Plugins_iter_installed xyz_env initial_registry)))))
    as (_ & _ & H & _).
  - intros []; reflexivity.
  - reflexivity.
  - rewrite H; [reflexivity |]. simpl. tauto.
Defined.

(** X3. After [OfficialPlugin.load(n)] has returned, [is_installed(n)] is
    true, in any state of the registry and whatever the other sources
    hold: the scanned sources are not read for the answer. *)
Theorem official_load_is_installed (E E' : env) (n : string) (p : plugin)
  (r r' : registry) :
  OfficialPlugin_load E n r = (Ok p, r') ->
  fst (is_installed E' n r') = Ok true
  /\ IS_LOADED EntrypointPlugin (snd (is_installed E' n r'))
     = IS_LOADED EntrypointPlugin r
  /\ IS_LOADED DictPlugin (snd (is_installed E' n r')) = IS_LOADED DictPlugin r.
Proof.
  intros Hload. unfold OfficialPlugin_load, OfficialPlugin_init in Hload.
  destruct (dict_get (modules E) _) as [m|]; [| discriminate].
  inversion Hload; subst p r'; clear Hload.
  rewrite is_installed_cached.
  - cbn [fst snd]. rewrite !visited_IS_LOADED. repeat split.
  - cbn [INSTALLED_append BasePlugin_INSTALLED INSTALLED].
    rewrite map_app, in_app_iff. right. now left.
Qed.

Lemma official_load_is_installed_witness :
  fst (is_installed broken_env "x"
         (snd (OfficialPlugin_load xyz_env "x" initial_registry))) = Ok true
  /\ snd (fst (Plugins_iter_installed broken_env initial_registry)) <> None.
Proof.
  split; [| discriminate].
  apply (@official_load_is_installed xyz_env broken_env "x" x_official
           initial_registry). reflexivity.
Defined.

(** X4. When the registry can be read, [is_installed(n)] is true exactly
    when the sequence of [Plugins.iter_installed] has a record named [n]. *)
Theorem is_installed_iff (E : env) (n : string) (r r1 : registry)
  (ys : list plugin) :
  Plugins_iter_installed E r = ((ys, None), r1) ->
  fst (is_installed E n r) = Ok (list_in n (map name ys)).
Proof.
  intros Hrun. destruct (list_in n (map name ys)) eqn:Hin.
  - apply list_in_In in Hin. exact (@is_installed_present E n r r1 ys Hrun Hin).
  - apply list_in_not_In in Hin.
    now rewrite (@is_installed_absent E n r r1 ys Hrun Hin).
Qed.

Lemma is_installed_iff_witness :
  fst (is_installed xyz_env "z" initial_registry) = Ok true
  /\ fst (is_installed xyz_env "forum" initial_registry) = Ok false.
Proof.
  split.
  - rewrite (@is_installed_iff xyz_env "z" initial_registry
               (snd (Plugins_iter_installed xyz_env initial_registry))
               (fst (fst (Plugins_iter_installed xyz_env initial_registry))));
      reflexivity.
  - rewrite (@is_installed_iff xyz_env "forum" initial_registry
               (snd (Plugins_iter_installed xyz_env initial_registry))
               (fst (fst (Plugins_iter_installed xyz_env initial_registry))));
      reflexivity.
Defined.

(** ** Discovery from files and its errors *)

Lemma DictPlugin_iter_load_app (good rest : list (string * document))
  (ps : list plugin) :
  DictPlugin_iter_load good = (ps, None) ->
  DictPlugin_iter_load (good ++ rest)
  = (ps ++ fst (DictPlugin_iter_load rest), snd (DictPlugin_iter_load rest)).
Proof.
  revert ps. induction good as [|[path doc] good IH]; intros ps; simpl.
  - intros H. inversion H; subst. now destruct (DictPlugin_iter_load rest).
  - destruct doc as [|data]; [discriminate |].
    destruct (DictPlugin_init data) as [p | e];
      [| destruct e; discriminate].
    destruct (DictPlugin_iter_load good) as [qs e] eqn:Hgood.
    intros H. inversion H; subst ps e; clear H.
    rewrite (IH qs eq_refl). reflexivity.
Qed.

(** X5. The files are read in order up to the first one that is not
    accepted, and the records of the files before it have been yielded.
    A document that is not a mapping stops the discovery with a
    [TutorError] that names the file. A mapping with a key that cannot be
    a field name stops it with the [ValueError] of the named tuple, which
    is not turned into a [TutorError], whether or not [name] and [version]
    are there. Otherwise a mapping without [name] is reported for [name],
    even when it has no [version] either, and a mapping with a name and no
    [version] is reported for [version], in a [TutorError] that names the
    file. *)
Theorem dict_discovery_errors (good rest : list (string * document))
  (ps : list plugin) (path : string) (doc : document) :
  DictPlugin_iter_load good = (ps, None) ->
  (doc = NotADict ->
   DictPlugin_iter_load (good ++ (path, doc) :: rest)
   = (ps, Some (TutorError
                  ("Invalid plugin: " ++ path ++ ". Expected dict.")%string)))
  /\ (forall data k, doc = Mapping data -> d_refused_key data = Some k ->
      DictPlugin_iter_load (good ++ (path, doc) :: rest)
      = (ps, Some (ValueError k)))
  /\ (forall data, doc = Mapping data -> d_refused_key data = None ->
      d_name data = None ->
      DictPlugin_iter_load (good ++ (path, doc) :: rest)
      = (ps, Some (TutorError
                     ("Invalid plugin: " ++ path ++ ". Missing key: name")%string)))
  /\ (forall data, doc = Mapping data -> d_refused_key data = None ->
      d_name data <> None -> d_version data = None ->
      DictPlugin_iter_load (good ++ (path, doc) :: rest)
      = (ps, Some (TutorError
                     ("Invalid plugin: " ++ path
                      ++ ". Missing key: version")%string))).
Proof.
  intros Hgood.
  rewrite (@DictPlugin_iter_load_app good ((path, doc) :: rest) ps Hgood).
  split; [| split; [| split]].
  - intros ->. simpl. now rewrite app_nil_r.
  - intros data k -> Hk. simpl. unfold DictPlugin_init. rewrite Hk. simpl.
    now rewrite app_nil_r.
  - intros data -> Hk Hn. simpl. unfold DictPlugin_init. rewrite Hk, Hn.
    simpl. now rewrite app_nil_r.
  - intros data -> Hk Hn Hv. simpl. unfold DictPlugin_init. rewrite Hk.
    destruct (d_name data); [| congruence]. rewrite Hv. simpl.
    now rewrite app_nil_r.
Qed.

Lemma dict_discovery_errors_witness :
  iter_load broken_env DictPlugin
  = ([forum_plugin],
     Some (TutorError "Invalid plugin: bad.yml. Missing key: version"))
  /\ DictPlugin_iter_load
       [("forum.yml", Mapping forum_data);
        ("odd.yml", Mapping (with_refused_key "my-key" forum_data))]
     = ([forum_plugin], Some (ValueError "my-key")).
Proof.
  split.
  - destruct (@dict_discovery_errors [("forum.yml", Mapping forum_data)] []
                [forum_plugin] "bad.yml" (Mapping broken_data) eq_refl)
      as (_ & _ & _ & H).
    apply (H broken_data); [reflexivity | reflexivity | discriminate
                            | reflexivity].
  - destruct (@dict_discovery_errors [("forum.yml", Mapping forum_data)] []
                [forum_plugin] "odd.yml"
                (Mapping (with_refused_key "my-key" forum_data)) eq_refl)
      as (_ & H & _).
    apply (H (with_refused_key "my-key" forum_data)); reflexivity.
Defined.

(** X6. When every file decodes to a mapping whose keys can all be field
    names and that has [name] and [version], the discovery ends without an
    exception and yields one record per file, in the order of the files,
    each with the name, the groups and the version of its file; the type
    of the version is not looked at. *)
Theorem dict_discovery_ok (files : list (string * document)) :
  (forall path doc, In (path, doc) files ->
     exists data, doc = Mapping data /\ d_refused_key data = None
                  /\ d_name data <> None /\ d_version data <> None) ->
  snd (DictPlugin_iter_load files) = None
  /\ Forall2 (fun f p =>
                exists data v,
                  snd f = Mapping data
                  /\ d_name data = Some (name p)
                  /\ d_version data = Some v /\ source p = OfDict v
                  /\ config p = match d_config data with
                                | Some c => c
                                | None => []
                                end
                  /\ patches p = match d_patches data with
                                 | Some c => c
                                 | None => []
                                 end
                  /\ hooks p = match d_hooks data with
                               | Some c => c
                               | None => []
                               end)
             files (fst (DictPlugin_iter_load files)).
Proof.
  induction files as [|[path doc] files IH]; intros Hok; simpl.
  - split; [reflexivity | constructor].
  - destruct (Hok path doc (or_introl eq_refl)) as (data & -> & Hk & Hn & Hv).
    unfold DictPlugin_init. rewrite Hk.
    destruct (d_name data) as [n|] eqn:Hname; [| congruence].
    destruct (d_version data) as [v|] eqn:Hversion; [| congruence].
    destruct IH as [He Hall].
    { intros path' doc' Hin. apply (Hok path' doc'). now right. }
    destruct (DictPlugin_iter_load files) as [ps e]. simpl in *.
    split; [assumption |]. constructor; [| assumption].
    exists data, v. simpl. rewrite Hname, Hversion.
    repeat split; unfold obj_of_data, attr_of_option; simpl;
      [destruct (d_config data) | destruct (d_patches data)
       | destruct (d_hooks data)]; reflexivity.
Qed.

Lemma dict_discovery_ok_witness :
  snd (iter_load ab_env DictPlugin) = None
  /\ map name (fst (iter_load ab_env DictPlugin)) = ["b"; "a"].
Proof.
  destruct (@dict_discovery_ok (plugin_files ab_env)) as [H _].
  - intros path doc [H | [H | []]]; inversion H; subst;
      eexists; (split; [reflexivity | split; [reflexivity | split; discriminate]]).
  - split; [exact H | reflexivity].
Defined.

(** X7. A discovery that raises is not undone and not remembered: the
    records read before the exception stay in [INSTALLED], the class is
    still not loaded, and the next visit of the class reads the source
    again and appends the same records once more. *)
Theorem failed_load_is_repeated (E : env) (c : PluginClass) (r : registry)
  (ps : list plugin) (err : error) :
  IS_LOADED c r = false ->
  iter_load E c = (ps, Some err) ->
  exists r1 r2,
    BasePlugin_iter_installed E c r = (([], Some err), r1)
    /\ BasePlugin_INSTALLED r1 = BasePlugin_INSTALLED r ++ ps
    /\ (forall c', IS_LOADED c' r1 = IS_LOADED c' r)
    /\ BasePlugin_iter_installed E c r1 = (([], Some err), r2)
    /\ BasePlugin_INSTALLED r2 = BasePlugin_INSTALLED r ++ ps ++ ps
    /\ (forall c', IS_LOADED c' r2 = IS_LOADED c' r).
Proof.
  intros Hl Hload. unfold BasePlugin_iter_installed.
  rewrite Hl, Hload. cbn [negb]. rewrite fold_append_INSTALLED.
  eexists. eexists. split; [reflexivity |].
  split; [reflexivity |].
  split; [intros []; reflexivity |].
  assert (Hl' : IS_LOADED c
            {| BasePlugin_INSTALLED := BasePlugin_INSTALLED r ++ ps;
               official_IS_LOADED := official_IS_LOADED r;
               entrypoint_IS_LOADED := entrypoint_IS_LOADED r;
               dict_IS_LOADED := dict_IS_LOADED r |} = false)
    by (destruct c; exact Hl).
  rewrite Hl'. cbn [negb]. rewrite fold_append_INSTALLED.
  split; [reflexivity |]. cbn [BasePlugin_INSTALLED].
  split; [now rewrite app_assoc | intros []; reflexivity].
Qed.

Lemma failed_load_is_repeated_witness :
  let r1 := snd (BasePlugin_iter_installed broken_env DictPlugin
                   initial_registry) in
  let r2 := snd (BasePlugin_iter_installed broken_env DictPlugin r1) in
  BasePlugin_INSTALLED r2 = [forum_plugin; forum_plugin]
  /\ IS_LOADED DictPlugin r2 = false.
Proof.
  cbv zeta.
  destruct (@failed_load_is_repeated broken_env DictPlugin initial_registry
              [forum_plugin]
              (TutorError "Invalid plugin: bad.yml. Missing key: version")
              eq_refl eq_refl) as (r1 & r2 & H1 & _ & _ & H2 & H3 & H4).
  rewrite H1. cbn [snd]. rewrite H2. cbn [snd]. rewrite H3, H4.
  split; reflexivity.
Defined.

(** X8. An exception of the discovery reaches the caller of every
    operation that visits the whole registry, and the configuration
    mapping is then the one that was passed: the constructor of [Plugins]
    builds no object, [iter_enabled], [iter_patches] and [iter_hooks]
    yield nothing, [disable] has written its first message only, and
    [enable] raises it too unless the name was yielded before the
    exception. *)
Theorem discovery_error_propagates (E : env) (cfg : dict value)
  (n slot : string) (r r1 : registry) (ys : list plugin) (err : error) :
  Plugins_iter_installed E r = ((ys, Some err), r1) ->
  Plugins_init E cfg r = (Raise err, r1)
  /\ iter_enabled E cfg r = (([], Some err), r1)
  /\ iter_patches E cfg slot r = (([], Some err), r1)
  /\ iter_hooks E cfg slot r = (([], Some err), r1)
  /\ disable E cfg n r
     = (Raise err, r1, cfg,
        [{| template := "Disabling plugin {}..."; arguments := [VStr n] |}])
  /\ (~ In n (map name ys) -> enable E cfg n r = (Raise err, r1, cfg)).
Proof.
  intros Hrun.
  assert (Hinit : Plugins_init E cfg r = (Raise err, r1)).
  { unfold Plugins_init, Plugins_iter_enabled. now rewrite Hrun. }
  unfold iter_enabled, iter_patches, iter_hooks, disable. rewrite Hinit.
  repeat (split; [reflexivity |]).
  intros Hn. unfold enable, is_installed.
  now rewrite (@is_installed_from_error E n PLUGIN_CLASSES [] r r1 ys err Hrun Hn).
Qed.

Lemma discovery_error_propagates_witness :
  let cfg := [("PLUGINS", VList ["x"])] in
  let err := TutorError "Invalid plugin: bad.yml. Missing key: version" in
  fst (fst (fst (disable broken_env cfg "x" initial_registry))) = Raise err
  /\ snd (fst (disable broken_env cfg "x" initial_registry)) = cfg
  /\ fst (fst (enable broken_env cfg "forum" initial_registry)) = Raise err.
Proof.
  cbv zeta.
  destruct (@discovery_error_propagates broken_env [("PLUGINS", VList ["x"])]
              "x" "body" initial_registry
              (snd (Plugins_iter_installed broken_env initial_registry))
              (fst (fst (Plugins_iter_installed broken_env initial_registry)))
              (TutorError "Invalid plugin: bad.yml. Missing key: version")
              eq_refl) as (_ & _ & _ & _ & Hd & _).
  destruct (@discovery_error_propagates broken_env [("PLUGINS", VList ["x"])]
              "forum" "body" initial_registry
              (snd (Plugins_iter_installed broken_env initial_registry))
              (fst (fst (Plugins_iter_installed broken_env initial_registry)))
              (TutorError "Invalid plugin: bad.yml. Missing key: version")
              eq_refl) as (_ & _ & _ & _ & _ & He).
  rewrite Hd, He; [repeat split |].
  simpl. intros [H | [H | []]]; discriminate H.
Defined.

(** ** [enable] and [disable] together *)






(** What a successful [enable] has done. *)
Lemma enable_ok_facts (E : env) (cfg : dict value) (n : string) (r : registry) :
  fst (fst (enable E cfg n r)) = Ok tt ->
  fst (is_installed E n r) = Ok true
  /\ snd (fst (enable E cfg n r)) = snd (is_installed E n r)
  /\ is_enabled (snd (enable E cfg n r)) n = true
  /\ (forall k, k <> CONFIG_KEY ->
                dict_get (snd (enable E cfg n r)) k = dict_get cfg k)
  /\ (forall k, In k (dict_keys cfg) ->
                In k (dict_keys (snd (enable E cfg n r)))).
Proof.
  unfold enable. destruct (is_installed E n r) as [[[|] | e] r1];
    cbn [fst snd]; try discriminate.
  destruct (is_enabled cfg n) eqn:Hen; cbn [fst snd].
  - intros _. repeat split; auto.
  - set (cfg1 := if dict_contains cfg CONFIG_KEY then cfg
                 else dict_set cfg CONFIG_KEY (VList [])).
    assert (Hframe1 : forall k, k <> CONFIG_KEY ->
                                dict_get cfg1 k = dict_get cfg k).
    { intros k Hk. unfold cfg1. destruct (dict_contains cfg CONFIG_KEY);
        [reflexivity |].
      rewrite dict_get_set. destruct (String.eqb_spec CONFIG_KEY k);
        [congruence | reflexivity]. }
    assert (Hkeys1 : forall k, In k (dict_keys cfg) -> In k (dict_keys cfg1)).
    { intros k Hk. unfold cfg1.
      destruct (dict_contains cfg CONFIG_KEY) eqn:Hc; [assumption |].
      rewrite dict_keys_set, Hc. apply in_or_app. now left. }
    destruct (dict_get cfg1 CONFIG_KEY) as [[s | l] |] eqn:Hget;
      cbn [fst snd]; try discriminate.
    intros _. repeat split.
    + unfold is_enabled, dict_get_default. rewrite dict_set_get_same.
      apply list_in_In. eapply Permutation_in; [apply sorted_perm |].
      apply in_or_app. right. now left.
    + intros k Hk. rewrite dict_get_set.
      destruct (String.eqb_spec CONFIG_KEY k); [congruence | now apply Hframe1].
    + intros k Hk. rewrite dict_keys_set.
      destruct (dict_contains cfg1 CONFIG_KEY);
        [| apply in_or_app; left]; now apply Hkeys1.
Qed.

(** X9. After a successful [enable] the plugin is enabled, every key other
    than [CONFIG_KEY] has the value it had, and no key has been removed. *)
Theorem enable_enables_and_keeps_other_keys (E : env) (cfg : dict value)
  (n : string) (r : registry) :
  fst (fst (enable E cfg n r)) = Ok tt ->
  is_enabled (snd (enable E cfg n r)) n = true
  /\ (forall k, k <> CONFIG_KEY ->
                dict_get (snd (enable E cfg n r)) k = dict_get cfg k)
  /\ (forall k, In k (dict_keys cfg) ->
                In k (dict_keys (snd (enable E cfg n r)))).
Proof.
  intros H. apply enable_ok_facts in H. tauto.
Qed.

Lemma enable_enables_and_keeps_other_keys_witness :
  let cfg := [("FORUM_SECRET", VStr "abc")] in
  is_enabled (snd (enable forum_env cfg "forum" initial_registry)) "forum"
  = true
  /\ dict_get (snd (enable forum_env cfg "forum" initial_registry))
       "FORUM_SECRET" = Some (VStr "abc").
Proof.
  cbv zeta.
  destruct (@enable_enables_and_keeps_other_keys forum_env
              [("FORUM_SECRET", VStr "abc")] "forum" initial_registry eq_refl)
    as (He & Hf & _).
  split; [exact He |]. rewrite Hf; [reflexivity | discriminate].
Defined.

(** X10. [enable] is idempotent: after a successful call, a second call
    with the same name succeeds and leaves the configuration mapping as
    the first call left it. *)
Theorem enable_idempotent (E : env) (cfg : dict value) (n : string)
  (r : registry) :
  fst (fst (enable E cfg n r)) = Ok tt ->
  fst (fst (enable E (snd (enable E cfg n r)) n (snd (fst (enable E cfg n r)))))
  = Ok tt
  /\ snd (enable E (snd (enable E cfg n r)) n (snd (fst (enable E cfg n r))))
     = snd (enable E cfg n r).
Proof.
  intros H. apply enable_ok_facts in H as (Hinst & Hr & Hen & _).
  rewrite Hr.
  set (cfg1 := snd (enable E cfg n r)) in *.
  pose proof (@is_installed_from_found E n PLUGIN_CLASSES [] r Hinst) as Hin.
  fold (is_installed E n r) in Hin.
  unfold enable.
  rewrite (@is_installed_cached E n (snd (is_installed E n r)) Hin), Hen.
  split; reflexivity.
Qed.

Lemma enable_idempotent_witness :
  let once := enable ab_env [("PLUGINS", VList ["b"])] "a" initial_registry in
  snd once = [("PLUGINS", VList ["a"; "b"])]
  /\ snd (enable ab_env (snd once) "a" (snd (fst once))) = snd once.
Proof.
  cbv zeta. split; [reflexivity |].
  apply (@enable_idempotent ab_env [("PLUGINS", VList ["b"])] "a"
           initial_registry eq_refl).
Defined.



Lemma disable_plugin_items_pair (items : list (string * value))
  (cfg : dict value) (log : list message) :
  fold_left
    (fun '(cfg, log) '(key, v) =>
       (dict_pop cfg key,
        echo_info log "    Removed config entry {}={}" [VStr key; v]))
    items (cfg, log)
  = (fold_left (@dict_pop value) (map fst items) cfg,
     log ++ map removed_message items).
Proof.
  revert cfg log. induction items as [|[k v] items IH]; intros cfg log; simpl.
  - now rewrite app_nil_r.
  - rewrite IH. unfold echo_info. now rewrite <- app_assoc.
Qed.

Lemma disable_loop_pair (n : string) (ps : list plugin)
  (st : dict value * list message) :
  fold_left (disable_plugin n) ps st
  = (fold_left (@dict_pop value) (removed_keys n ps) (fst st),
     snd st ++ removed_messages n ps).
Proof.
  revert st. induction ps as [|p ps IH]; intros [cfg log]; simpl.
  - now rewrite app_nil_r.
  - rewrite IH. unfold disable_plugin.
    destruct (String.eqb n (name p)).
    + rewrite disable_plugin_items_pair. cbn [fst snd].
      unfold dict_keys, dict_items. now rewrite fold_left_app, <- app_assoc.
    + reflexivity.
Qed.

Lemma removed_messages_none (n : string) (ps : list plugin) :
  ~ In n (map name ps) -> removed_messages n ps = [].
Proof.
  induction ps as [|p ps IH]; simpl; intros Hn; [reflexivity |].
  destruct (String.eqb_spec n (name p)) as [-> | _]; [tauto |].
  apply IH. tauto.
Qed.

Lemma removed_messages_one (n : string) (ps : list plugin) (p : plugin) :
  NoDup (map name ps) -> In p ps -> name p = n ->
  removed_messages n ps = map removed_message (dict_items (config_set p)).
Proof.
  induction ps as [|q ps IH]; simpl; intros Hnd Hin Hname; [contradiction |].
  inversion Hnd as [|? ? Hnin Hnd']; subst.
  destruct Hin as [-> | Hin].
  - rewrite String.eqb_refl, removed_messages_none by assumption.
    apply app_nil_r.
  - destruct (String.eqb_spec (name p) (name q)) as [Heq | _].
    + exfalso. apply Hnin. rewrite <- Heq. now apply in_map.
    + now apply IH.
Qed.

(** [disable] for an enabled plugin whose [config.set] does not name the
    entry [CONFIG_KEY]. *)
Lemma disable_enabled (E : env) (cfg : dict value) (n : string)
  (r r1 : registry) (ys : list plugin) (p : plugin) (enabled : list string) :
  Plugins_iter_installed E r = ((ys, None), r1) ->
  In p ys -> name p = n ->
  dict_get cfg CONFIG_KEY = Some (VList enabled) -> In n enabled ->
  ~ In CONFIG_KEY (dict_keys (config_set p)) ->
  disable E cfg n r
  = (Ok tt, r1,
     dict_set (fold_left (@dict_pop value) (dict_keys (config_set p)) cfg)
       CONFIG_KEY (VList (filter (fun y => negb (String.eqb n y)) enabled)),
     ({| template := "Disabling plugin {}..."; arguments := [VStr n] |}
      :: map removed_message (dict_items (config_set p)))
     ++ [{| template := "    Plugin disabled"; arguments := [] |}]).
Proof.
  intros Hrun Hp Hname Hget Hin Hkey.
  rewrite (@disable_unfold E cfg n r r1 ys Hrun). cbv zeta.
  set (en := filter (fun q => is_enabled cfg (name q)) ys).
  assert (Hen : In p en).
  { apply filter_In. split; [assumption |]. unfold is_enabled, dict_get_default.
    rewrite Hget, Hname. now apply list_in_In. }
  assert (Hnd : NoDup (map name en)) by exact (@enabled_NoDup E cfg r r1 ys Hrun).
  rewrite disable_loop_pair.
  rewrite (@removed_keys_one n en p Hnd Hen Hname).
  rewrite (@removed_messages_one n en p Hnd Hen Hname).
  cbn [fst snd]. rewrite fold_pop_get.
  rewrite (proj2 (list_in_not_In _ _) Hkey), Hget.
  rewrite remove_while_filter by apply le_n. reflexivity.
Qed.



(** X12. [disable] of an enabled plugin writes the opening message, then
    one message for every item of [config.set] of the plugin, in the order
    of the items and whether or not the key was in the configuration
    mapping, then the closing message. *)
Theorem disable_messages (E : env) (cfg : dict value) (n : string)
  (r r1 : registry) (ys : list plugin) (p : plugin) (enabled : list string) :
  Plugins_iter_installed E r = ((ys, None), r1) ->
  In p ys -> name p = n ->
  dict_get cfg CONFIG_KEY = Some (VList enabled) -> In n enabled ->
  ~ In CONFIG_KEY (dict_keys (config_set p)) ->
  snd (disable E cfg n r)
  = ({| template := "Disabling plugin {}..."; arguments := [VStr n] |}
     :: map removed_message (dict_items (config_set p)))
    ++ [{| template := "    Plugin disabled"; arguments := [] |}].
Proof.
  intros Hrun Hp Hname Hget Hin Hkey.
  now rewrite (@disable_enabled E cfg n r r1 ys p enabled
                 Hrun Hp Hname Hget Hin Hkey).
Qed.

Lemma disable_messages_witness :
  map template
    (snd (disable forum_env [("PLUGINS", VList ["forum"])] "forum"
            initial_registry))
  = ["Disabling plugin {}..."; "    Removed config entry {}={}";
     "    Plugin disabled"].
Proof.
  rewrite (@disable_messages forum_env [("PLUGINS", VList ["forum"])] "forum"
             initial_registry
             (snd (Plugins_iter_installed forum_env initial_registry))
             [forum_plugin] forum_plugin ["forum"]);
    try reflexivity; try (left; reflexivity).
  simpl. intros [H | []]. discriminate H.
Defined.

Lemma disable_not_enabled_witness :
  let cfg := [("PLUGINS", VList ["other"]); ("FORUM_SECRET", VStr "abc")] in
  snd (fst (disable forum_env cfg "forum" initial_registry)) = cfg
  /\ length (snd (disable forum_env cfg "forum" initial_registry)) = 2.
Proof.
  cbv zeta.
  rewrite (@disable_not_enabled forum_env
             [("PLUGINS", VList ["other"]); ("FORUM_SECRET", VStr "abc")]
             "forum" initial_registry
             (snd (Plugins_iter_installed forum_env initial_registry))
             [forum_plugin] ["other"]).
  - split; reflexivity.
  - reflexivity.
  - reflexivity.
  - simpl. intros [H | []]. discriminate H.
Defined.

Lemma fold_pop_keys (ks : list string) (cfg : dict value) (k : string) :
  In k (dict_keys (fold_left (@dict_pop value) ks cfg)) -> In k (dict_keys cfg).
Proof.
  revert cfg. induction ks as [|k0 ks IH]; intros cfg; simpl; [tauto |].
  intros H. apply IH in H. apply dict_keys_pop in H. tauto.
Qed.

(** X14. Whenever [disable] returns normally, the name is not enabled
    afterwards, and the configuration mapping has no key that it did not
    have before. *)
Theorem disable_ok_post (E : env) (cfg : dict value) (n : string)
  (r : registry) :
  fst (fst (fst (disable E cfg n r))) = Ok tt ->
  is_enabled (snd (fst (disable E cfg n r))) n = false
  /\ (forall k, In k (dict_keys (snd (fst (disable E cfg n r)))) ->
                In k (dict_keys cfg)).
Proof.
  destruct (Plugins_iter_installed E r) as [[ys [err|]] r1] eqn:Hrun.
  - unfold disable, Plugins_init, Plugins_iter_enabled. rewrite Hrun.
    cbn [fst]. discriminate.
  - rewrite (@disable_unfold E cfg n r r1 ys Hrun). cbv zeta.
    rewrite disable_loop_pair. cbn [fst snd].
    set (ks := removed_keys n _).
    destruct (dict_get (fold_left (@dict_pop value) ks cfg) CONFIG_KEY)
      as [[s | l] |] eqn:Hget; cbn [fst snd]; [| | discriminate].
    + destruct (str_in n s) eqn:Hs; cbn [fst snd]; [discriminate |].
      intros _. split.
      * unfold is_enabled, dict_get_default. now rewrite Hget.
      * intros k. apply fold_pop_keys.
    + intros _. split.
      * unfold is_enabled, dict_get_default. rewrite dict_set_get_same.
        rewrite remove_while_filter by apply le_n. apply list_in_filter_neq.
      * intros k. rewrite dict_keys_set.
        assert (Hc : dict_contains (fold_left (@dict_pop value) ks cfg)
                       CONFIG_KEY = true).
        { destruct (dict_contains _ CONFIG_KEY) eqn:Hc; [reflexivity |].
          apply dict_contains_get in Hc. congruence. }
        rewrite Hc. apply fold_pop_keys.
Qed.

Lemma disable_ok_post_witness :
  let cfg := [("PLUGINS", VList ["forum"; "a"; "forum"])] in
  is_enabled (snd (fst (disable forum_env cfg "forum" initial_registry)))
    "forum" = false.
Proof.
  cbv zeta.
  apply (@disable_ok_post forum_env [("PLUGINS", VList ["forum"; "a"; "forum"])]
           "forum" initial_registry eq_refl).
Defined.

(** ** The enabled plugins *)

(** [iter_enabled] after a visit of the registry without an exception. *)
Lemma iter_enabled_unfold (E : env) (cfg : dict value) (r r1 : registry)
  (ys : list plugin) :
  Plugins_iter_installed E r = ((ys, None), r1) ->
  iter_enabled E cfg r
  = ((filter (fun p => is_enabled cfg (name p)) ys, None), r1).
Proof.
  intros Hrun. unfold iter_enabled.
  rewrite (@Plugins_init_ok E cfg r r1 ys Hrun).
  pose proof Hrun as Hinv.
  apply Plugins_iter_installed_inv in Hinv as (Hys & Hall & _).
  unfold Plugins_iter_enabled.
  rewrite (Plugins_iter_installed_replay E Hall), <- Hys.
  now rewrite record_plugin_config.
Qed.

(** X15. When the registry can be read, [iter_enabled(config)] yields the
    records of the registry whose name is in the list of enabled plugins,
    in the order of the registry, each name once. The order of the list
    and repetitions in it change nothing. *)
Theorem iter_enabled_by_membership (E : env) (cfg cfg' : dict value)
  (r r1 : registry) (ys : list plugin) (l l' : list string) :
  Plugins_iter_installed E r = ((ys, None), r1) ->
  dict_get cfg CONFIG_KEY = Some (VList l) ->
  dict_get cfg' CONFIG_KEY = Some (VList l') ->
  (forall x, In x l <-> In x l') ->
  iter_enabled E cfg r = ((filter (fun p => list_in (name p) l) ys, None), r1)
  /\ NoDup (map name (fst (fst (iter_enabled E cfg r))))
  /\ iter_enabled E cfg' r = iter_enabled E cfg r.
Proof.
  intros Hrun Hget Hget' Hsame.
  rewrite !(@iter_enabled_unfold E _ r r1 ys Hrun).
  assert (H1 : forall p, is_enabled cfg (name p) = list_in (name p) l).
  { intros p. unfold is_enabled, dict_get_default. now rewrite Hget. }
  assert (H2 : forall p, is_enabled cfg' (name p) = list_in (name p) l).
  { intros p. unfold is_enabled, dict_get_default. rewrite Hget'. simpl.
    destruct (list_in (name p) l) eqn:Hin.
    - apply list_in_In. apply Hsame. now apply list_in_In.
    - apply list_in_not_In. rewrite <- Hsame. now apply list_in_not_In. }
  rewrite (filter_ext _ _ H1), (filter_ext _ _ H2).
  split; [reflexivity |]. split; [| reflexivity].
  cbn [fst]. apply NoDup_map_filter.
  apply Plugins_iter_installed_inv in Hrun as (-> & _).
  apply dedup_by_name_NoDup.
Qed.

Lemma iter_enabled_by_membership_witness :
  map name
    (fst (fst (iter_enabled xyz_env [("PLUGINS", VList ["z"; "x"; "z"])]
                 initial_registry)))
  = ["x"; "z"].
Proof.
  destruct (@iter_enabled_by_membership xyz_env
              [("PLUGINS", VList ["z"; "x"; "z"])]
              [("PLUGINS", VList ["x"; "z"])]
              initial_registry
              (snd (Plugins_iter_installed xyz_env initial_registry))
              (fst (fst (Plugins_iter_installed xyz_env initial_registry)))
              ["z"; "x"; "z"] ["x"; "z"]) as (H & _).
  - reflexivity.
  - reflexivity.
  - reflexivity.
  - intros x. simpl. tauto.
  - rewrite H. reflexivity.
Defined.

(** X16. A configuration mapping without the entry [CONFIG_KEY] enables
    nothing: when the registry can be read, [iter_enabled] yields no
    plugin and [iter_patches] and [iter_hooks] yield nothing for any slot
    or phase, whatever is installed. *)
Theorem nothing_enabled_without_entry (E : env) (cfg : dict value)
  (slot : string) (r r1 : registry) (ys : list plugin) :
  Plugins_iter_installed E r = ((ys, None), r1) ->
  dict_get cfg CONFIG_KEY = None ->
  iter_enabled E cfg r = (([], None), r1)
  /\ iter_patches E cfg slot r = (([], None), r1)
  /\ iter_hooks E cfg slot r = (([], None), r1).
Proof.
  intros Hrun Hget.
  assert (Hnone : filter (fun p => is_enabled cfg (name p)) ys = []).
  { unfold is_enabled, dict_get_default. rewrite Hget. simpl.
    clear. induction ys as [|y ys IH]; simpl; [reflexivity | exact IH]. }
  split; [| split].
  - rewrite (@iter_enabled_unfold E cfg r r1 ys Hrun). now rewrite Hnone.
  - unfold iter_patches. rewrite (@Plugins_init_ok E cfg r r1 ys Hrun), Hnone.
    reflexivity.
  - unfold iter_hooks. rewrite (@Plugins_init_ok E cfg r r1 ys Hrun), Hnone.
    reflexivity.
Qed.

Lemma nothing_enabled_without_entry_witness :
  iter_patches ab_env [("OTHER", VStr "1")] "body" initial_registry
  = (([], None), snd (Plugins_iter_installed ab_env initial_registry)).
Proof.
  destruct (@nothing_enabled_without_entry ab_env [("OTHER", VStr "1")] "body"
              initial_registry
              (snd (Plugins_iter_installed ab_env initial_registry))
              (fst (fst (Plugins_iter_installed ab_env initial_registry)))
              eq_refl eq_refl) as (_ & H & _).
  exact H.
Defined.

(** ** Names are yielded once *)

Lemma yield_new_names (seen : list string) (ps : list plugin) :
  NoDup (map name (fst (yield_new seen ps)))
  /\ (forall x, In x (map name (fst (yield_new seen ps))) ->
                ~ In x seen /\ In x (snd (yield_new seen ps))).
Proof.
  split.
  - rewrite yield_new_filter. apply NoDup_map_filter, dedup_by_name_NoDup.
  - intros x Hx. apply in_map_iff in Hx as (p & <- & Hp). split.
    + rewrite yield_new_filter in Hp. apply filter_In in Hp as [_ Hp].
      apply list_in_not_In. now destruct (list_in (name p) seen).
    + apply yield_new_seen. right. apply in_map.
      now apply (@yield_new_subset seen).
Qed.

Lemma iter_installed_from_names (E : env) (cs : list PluginClass)
  (seen : list string) (r r1 : registry) (ys : list plugin) (e : option error) :
  iter_installed_from E cs seen r = ((ys, e), r1) ->
  NoDup (map name ys) /\ (forall x, In x (map name ys) -> ~ In x seen).
Proof.
  revert seen r ys. induction cs as [|c cs IH]; intros seen r ys; simpl.
  - intros H. inversion H; subst. split; [constructor | simpl; tauto].
  - destruct (BasePlugin_iter_installed E c r) as [[ps e0] r0].
    destruct (yield_new_names seen ps) as [Hnd Hnew].
    pose proof (yield_new_seen seen ps) as Hseen.
    destruct (yield_new seen ps) as [y s]. cbn [fst snd] in *.
    destruct e0 as [err|].
    + intros H. inversion H; subst. split; [assumption |].
      intros x Hx. now apply Hnew.
    + destruct (iter_installed_from E cs s r0) as [[zs e'] r2] eqn:Hrest.
      intros H. inversion H; subst ys e' r2; clear H.
      apply IH in Hrest as [Hndz Hz]. rewrite map_app. split.
      * apply NoDup_app; [assumption | assumption |].
        intros x Hx Hx'. apply (Hz x Hx'). now apply Hnew.
      * intros x Hx. apply in_app_iff in Hx as [Hx | Hx]; [now apply Hnew |].
        intros Hs. apply (Hz x Hx). apply Hseen. now left.
Qed.

(** X17. [Plugins.iter_installed] never yields two records of one name, in
    any state of the registry, also when [INSTALLED] holds a record several
    times and also when the visit ends with an exception. *)
Theorem iter_installed_names_once (E : env) (r : registry) :
  NoDup (map name (fst (fst (Plugins_iter_installed E r)))).
Proof.
  destruct (Plugins_iter_installed E r) as [[ys e] r1] eqn:H.
  apply iter_installed_from_names in H. cbn [fst]. tauto.
Qed.

(** ** The [version] property *)

(** X18. The discovery does not look at versions; [version] decides when
    it is read. The record of an entry point always has a version, the one
    of its distribution or ["0.0.0"] without a distribution. The record of
    a file gives its version when that is a string and raises [TypeError]
    otherwise. The record of a first-party module gives [__version__] when
    that is a string, and raises [TypeError] when it is not a string and
    [AttributeError] when the module has none. *)
Theorem version_of_discovered (E : env) :
  (forall ep p, EntrypointPlugin_init ep = Ok p ->
     version p = Ok (match ep_dist ep with
                     | Some v => v
                     | None => "0.0.0"
                     end))
  /\ (forall data p, DictPlugin_init data = Ok p ->
        exists v, d_version data = Some v
          /\ version p = match v with
                         | VStr s => Ok s
                         | VList _ =>
                             Raise (TypeError "DictPlugin.__version__ must be str")
                         end)
  /\ (forall n p, OfficialPlugin_init E n = Ok p ->
        exists m, dict_get (modules E) ("tutor" ++ n ++ ".plugin")%string = Some m
          /\ version p = match mod_version m with
                         | Some (VStr s) => Ok s
                         | Some (VList _) =>
                             Raise (TypeError
                                      "OfficialPlugin __version__ must be 'str'")
                         | None => Raise (AttributeError "__version__")
                         end).
Proof.
  split; [| split].
  - intros ep p. unfold EntrypointPlugin_init.
    destruct (ep_load ep); [| discriminate].
    intros H. inversion H; subst. unfold version. simpl.
    now destruct (ep_dist ep).
  - intros data p. unfold DictPlugin_init.
    destruct (d_refused_key data); [discriminate |].
    destruct (d_name data); [| discriminate].
    destruct (d_version data) as [v|]; [| discriminate].
    intros H. inversion H; subst. exists v. split; [reflexivity |].
    unfold version. simpl. now destruct v.
  - intros n p. unfold OfficialPlugin_init.
    destruct (dict_get (modules E) _) as [m|]; [| discriminate].
    intros H. inversion H; subst. exists m. split; [reflexivity |].
    unfold version. simpl. destruct (mod_version m) as [[s | l] |]; reflexivity.
Qed.

Lemma version_of_discovered_witness :
  map version (fst (fst (Plugins_iter_installed xyz_env initial_registry)))
  = [Ok "2.0"; Ok "0.0.0"; Ok "1.0"].
Proof.
  destruct (version_of_discovered xyz_env) as (He & _ & _).
  pose proof (He {| ep_name := "y"; ep_load := Ok no_attrs; ep_dist := None |}
                _ eq_refl) as Hy.
  simpl in Hy. simpl. rewrite Hy. reflexivity.
Defined.
